(** * Divergence scanner: RSI / MACD indicators, local extrema, classifier

    A shallow embedding of [bitcoindiv.py] (functions [calculate_indicators],
    [find_peaks_valleys], [analyze_market] and the guard of [main]) together
    with the properties of these functions.

    Number model.  The program computes on IEEE binary64 values held in
    pandas Series.  Here a value is either one of the three special values
    (NaN, +inf, -inf) or an exact rational: the special values and the way
    they go through arithmetic and comparisons are as in IEEE 754, the
    rounding of finite results and the sign of zero are left out (a division
    of a non-zero value by zero gives the infinity of the sign of the
    numerator). *)

From Stdlib Require Import String.
From Stdlib Require Import List ZArith QArith Lia Lqa Bool Sorted.
Import ListNotations.

(** ** Floating-point values *)

Inductive float64 : Type :=
| NaN
| PInf
| NInf
| Fin (q : Q).

Declare Scope f64_scope.
Delimit Scope f64_scope with f64.
Bind Scope f64_scope with float64.

Definition Qltb (x y : Q) : bool := negb (Qle_bool y x).

(** [x == x] of the C code: false exactly on NaN. *)
Definition is_observation (x : float64) : bool :=
  match x with NaN => false | _ => true end.

Definition fopp (x : float64) : float64 :=
  match x with
  | NaN => NaN
  | PInf => NInf
  | NInf => PInf
  | Fin q => Fin (- q)
  end.

Definition fadd (x y : float64) : float64 :=
  match x, y with
  | NaN, _ | _, NaN => NaN
  | PInf, NInf | NInf, PInf => NaN
  | PInf, _ | _, PInf => PInf
  | NInf, _ | _, NInf => NInf
  | Fin p, Fin q => Fin (p + q)
  end.

Definition fsub (x y : float64) : float64 := fadd x (fopp y).

(** Infinity of the sign of [q]; [inf * 0] is NaN. *)
Definition inf_times (positive : bool) (q : Q) : float64 :=
  match q ?= 0 with
  | Eq => NaN
  | Gt => if positive then PInf else NInf
  | Lt => if positive then NInf else PInf
  end.

Definition fmul (x y : float64) : float64 :=
  match x, y with
  | NaN, _ | _, NaN => NaN
  | Fin p, Fin q => Fin (p * q)
  | PInf, Fin q | Fin q, PInf => inf_times true q
  | NInf, Fin q | Fin q, NInf => inf_times false q
  | PInf, PInf | NInf, NInf => PInf
  | PInf, NInf | NInf, PInf => NInf
  end.

Definition fdiv (x y : float64) : float64 :=
  match x, y with
  | NaN, _ | _, NaN => NaN
  | Fin p, Fin q =>
      if Qeq_bool q 0 then inf_times true p else Fin (p / q)
  | Fin _, (PInf | NInf) => Fin 0
  | (PInf | NInf), (PInf | NInf) => NaN
  | PInf, Fin q => if Qltb q 0 then NInf else PInf
  | NInf, Fin q => if Qltb q 0 then PInf else NInf
  end.

(** [x < y]: false as soon as one side is NaN. *)
Definition fltb (x y : float64) : bool :=
  match x, y with
  | NaN, _ | _, NaN => false
  | _, NInf => false
  | NInf, _ => true
  | PInf, _ => false
  | Fin _, PInf => true
  | Fin p, Fin q => Qltb p q
  end.

Definition fgtb (x y : float64) : bool := fltb y x.

(** [x != y] of the C code: true when one side is NaN. *)
Definition fneqb (x y : float64) : bool :=
  match x, y with
  | NaN, _ | _, NaN => true
  | PInf, PInf | NInf, NInf => false
  | Fin p, Fin q => negb (Qeq_bool p q)
  | _, _ => true
  end.

Infix "+" := fadd : f64_scope.
Infix "-" := fsub : f64_scope.
Infix "*" := fmul : f64_scope.
Infix "/" := fdiv : f64_scope.
Infix "<?" := fltb : f64_scope.
Infix ">?" := fgtb (at level 70) : f64_scope.

(** Equality of values up to the representation of the rational. *)
Definition feq (x y : float64) : Prop :=
  match x, y with
  | NaN, NaN | PInf, PInf | NInf, NInf => True
  | Fin p, Fin q => p == q
  | _, _ => False
  end.

Definition is_finite (x : float64) : Prop :=
  match x with Fin _ => True | _ => False end.

(** [lo <= x <= hi] for a finite [x]. *)
Definition in_range (lo hi : Q) (x : float64) : Prop :=
  match x with Fin q => lo <= q /\ q <= hi | _ => False end.

(** ** Series *)

Definition Series := list float64.

Fixpoint map2 (f : float64 -> float64 -> float64) (a b : Series) : Series :=
  match a, b with
  | x :: a', y :: b' => f x y :: map2 f a' b'
  | _, _ => []
  end.

(** [Series.diff()]: NaN first, then the difference with the element before. *)
Fixpoint diff_from (prev : float64) (s : Series) : Series :=
  match s with
  | [] => []
  | x :: rest => (x - prev)%f64 :: diff_from x rest
  end.

Definition diff (s : Series) : Series :=
  match s with
  | [] => []
  | x :: rest => NaN :: diff_from x rest
  end.

(** [s.where(cond, other)]: keeps the value where [cond] holds. *)
Definition where_ (cond : float64 -> bool) (other : float64) (s : Series)
  : Series :=
  map (fun x => if cond x then x else other) s.

(** ** pandas' [ewm(..., adjust=False).mean()]

    [calculate_indicators] calls pandas' exponentially weighted mean.  This is
    the loop of the library (adjust=False, ignore_na=False): it starts on the
    first value, keeps the running mean [weighted], the weight [old_wt] of the
    history and the number [nobs] of non-NaN values seen so far, row 0
    included, and shows the mean of a row only once [nobs] has reached
    [min_periods] (at least 1); before that the row is NaN. *)

Record ewm_state : Type := {
  weighted : float64;
  old_wt : Q;
  nobs : nat
}.

Definition ewm_init (v0 : float64) : ewm_state :=
  {| weighted := v0; old_wt := 1;
     nobs := if is_observation v0 then 1 else 0 |}.

Definition ewm_update (alpha : Q) (st : ewm_state) (cur : float64)
  : ewm_state :=
  let n := if is_observation cur then S (nobs st) else nobs st in
  if is_observation (weighted st) then
    let w := (old_wt st * (1 - alpha))%Q in
    if is_observation cur then
      {| weighted :=
           if fneqb (weighted st) cur
           then ((Fin w * weighted st + Fin alpha * cur) / Fin (w + alpha))%f64
           else weighted st;
         old_wt := 1;
         nobs := n |}
    else {| weighted := weighted st; old_wt := w; nobs := n |}
  else if is_observation cur then
    {| weighted := cur; old_wt := old_wt st; nobs := n |}
  else {| weighted := weighted st; old_wt := old_wt st; nobs := n |}.

Definition ewm_out (minp : nat) (st : ewm_state) : float64 :=
  if (minp <=? nobs st)%nat then weighted st else NaN.

Fixpoint ewm_loop (alpha : Q) (minp : nat) (st : ewm_state) (vals : Series)
  : Series :=
  match vals with
  | [] => []
  | cur :: rest =>
      let st' := ewm_update alpha st cur in
      ewm_out minp st' :: ewm_loop alpha minp st' rest
  end.

Definition ewm_mean (alpha : Q) (min_periods : nat) (vals : Series) : Series :=
  let minp := Nat.max min_periods 1 in
  match vals with
  | [] => []
  | v0 :: rest =>
      ewm_out minp (ewm_init v0) :: ewm_loop alpha minp (ewm_init v0) rest
  end.

(** [span=n] stands for [alpha = 2/(n+1)]. *)
Definition alpha_of_span (span : Z) : Q := 2 / (inject_Z span + 1).

(** ** Configuration *)

Definition RSI_LENGTH : nat := 14.
Definition LOOKBACK : nat := 5.
Definition MACD_FAST : Z := 12.
Definition MACD_SLOW : Z := 26.
Definition MACD_SIGNAL : Z := 9.

(** ** Candles *)

Record Candle : Type := {
  timestamp : Z;
  open : float64;
  high : float64;
  low : float64;
  close : float64;
  volume : float64
}.

Definition DataFrame := list Candle.

Definition col (field : Candle -> float64) (df : DataFrame) : Series :=
  map field df.

(** ** calculate_indicators *)

Definition delta (closes : Series) : Series := diff closes.

Definition gain (closes : Series) : Series :=
  where_ (fun d => d >? Fin 0)%f64 (Fin 0) (delta closes).

Definition loss (closes : Series) : Series :=
  map fopp (where_ (fun d => d <? Fin 0)%f64 (Fin 0) (delta closes)).

Definition rsi_alpha : Q := 1 / inject_Z (Z.of_nat RSI_LENGTH).

Definition avg_gain (closes : Series) : Series :=
  ewm_mean rsi_alpha RSI_LENGTH (gain closes).

Definition avg_loss (closes : Series) : Series :=
  ewm_mean rsi_alpha RSI_LENGTH (loss closes).

Definition rs (closes : Series) : Series :=
  map2 fdiv (avg_gain closes) (avg_loss closes).

Definition rsi_of (r : float64) : float64 :=
  (Fin 100 - Fin 100 / (Fin 1 + r))%f64.

Definition rsi (closes : Series) : Series := map rsi_of (rs closes).

Definition ema (span : Z) (s : Series) : Series :=
  ewm_mean (alpha_of_span span) 0 s.

Definition macd_line (closes : Series) : Series :=
  map2 fsub (ema MACD_FAST closes) (ema MACD_SLOW closes).

Definition signal_line (closes : Series) : Series :=
  ema MACD_SIGNAL (macd_line closes).

Definition macd_hist (closes : Series) : Series :=
  map2 fsub (macd_line closes) (signal_line closes).

Record Indicators : Type := {
  ind_rsi : Series;
  ind_macd_hist : Series
}.

Definition calculate_indicators (df : DataFrame) : Indicators :=
  {| ind_rsi := rsi (col close df);
     ind_macd_hist := macd_hist (col close df) |}.

(** ** Exceptions *)

Inductive exn : Type :=
| IndexError
| KeyError.

Inductive result (A : Type) : Type :=
| Ok (a : A)
| Raise (e : exn).

Arguments Ok {A} a.
Arguments Raise {A} e.

Definition bind {A B : Type} (m : result A) (k : A -> result B) : result B :=
  match m with
  | Ok a => k a
  | Raise e => Raise e
  end.

Notation "x <- m ;; k" := (bind m (fun x => k))
  (at level 61, m at next level, right associativity).
Notation "' p <- m ;; k" := (bind m (fun x => let p := x in k))
  (at level 61, p pattern, m at next level, right associativity).

(** [series[i]] on the default integer index: a missing label raises. *)
Definition loc (s : Series) (i : nat) : result float64 :=
  match nth_error s i with
  | Some x => Ok x
  | None => Raise KeyError
  end.

(** [series.iloc[k]], negative positions counting from the end. *)
Definition iloc (s : Series) (k : Z) : result float64 :=
  let n := Z.of_nat (length s) in
  let pos := (if k <? 0 then n + k else k)%Z in
  if ((0 <=? pos) && (pos <? n))%Z
  then loc s (Z.to_nat pos)
  else Raise IndexError.

(** ** find_peaks_valleys *)

(** [all(p(j) for j in js)]: stops at the first false. *)
Fixpoint all_m (p : nat -> result bool) (js : list nat) : result bool :=
  match js with
  | [] => Ok true
  | j :: rest => b <- p j ;; if b then all_m p rest else Ok false
  end.

(** [a and b] where [b] is evaluated only when [a] holds. *)
Definition and_m (a b : result bool) : result bool :=
  x <- a ;; if x then b else Ok false.

(** [range(1, lookback+1)] *)
Definition window (lookback : nat) : list nat := seq 1 lookback.

(** [all(current > series[i-j] ...) and all(current > series[i+j] ...)].
    The loop starts at [lookback] and [j <= lookback], so [i - j] is never
    negative. *)
Definition dominates (cmp : float64 -> float64 -> bool) (series : Series)
  (lookback i : nat) (current : float64) : result bool :=
  and_m
    (all_m (fun j => x <- loc series (i - j) ;; Ok (cmp current x))
           (window lookback))
    (all_m (fun j => x <- loc series (i + j) ;; Ok (cmp current x))
           (window lookback)).

(** The body of the [for] loop, over the indices still to visit; indices are
    collected in the order of the visit. *)
Fixpoint scan (series : Series) (lookback : nat) (idx : list nat)
  : result (list nat * list nat) :=
  match idx with
  | [] => Ok ([], [])
  | i :: rest =>
      current <- loc series i ;;
      is_peak <- dominates fgtb series lookback i current ;;
      is_valley <- dominates fltb series lookback i current ;;
      '(peaks, valleys) <- scan series lookback rest ;;
      Ok (if is_peak then i :: peaks else peaks,
          if is_valley then i :: valleys else valleys)
  end.

Definition find_peaks_valleys (series : Series) (lookback : nat)
  : result (list nat * list nat) :=
  if (length series <? lookback * 2)%nat then Ok ([], [])
  else scan series lookback
         (seq lookback (length series - lookback - lookback)).

(** ** analyze_market *)

Inductive Signal : Type :=
| Neutral
| BullishDiv
| BearishDiv.

(** The four texts of the confirmation column. *)
Inductive Confirmation : Type :=
| NoConfirmation
| JaSteigend
| JaFallend
| Nein.

(** The values printed in the details column: previous and last price,
    previous and last RSI. *)
Record Details : Type := {
  p_prev : float64;
  p_last : float64;
  r_prev : float64;
  r_last : float64
}.

Record Verdict : Type := {
  signal : Signal;
  details : option Details;
  macd_conf : Confirmation
}.

Record Report : Type := {
  price : float64;
  verdict : Verdict
}.

(** [l[-1]] and [l[-2]] of a list known to have two elements. *)
Definition last_of (l : list nat) : nat := nth (length l - 1) l 0%nat.
Definition prev_of (l : list nat) : nat := nth (length l - 2) l 0%nat.

(** [len(df) - last_idx < 15] *)
Definition fresh (n last_idx : nat) : bool :=
  (Z.of_nat n - Z.of_nat last_idx <? 15)%Z.

Definition bullish_check (n : nat) (lows rsis : Series)
  (price_valleys_idx : list nat) (curr_hist prev_hist : float64)
  (v : Verdict) : result Verdict :=
  if (2 <=? length price_valleys_idx)%nat then
    let last_idx := last_of price_valleys_idx in
    let prev_idx := prev_of price_valleys_idx in
    if fresh n last_idx then
      p_last <- loc lows last_idx ;;
      p_prev <- loc lows prev_idx ;;
      r_last <- loc rsis last_idx ;;
      r_prev <- loc rsis prev_idx ;;
      if (p_last <? p_prev)%f64 && (r_last >? r_prev)%f64 then
        Ok {| signal := BullishDiv;
              details := Some {| p_prev := p_prev; p_last := p_last;
                                 r_prev := r_prev; r_last := r_last |};
              macd_conf :=
                if (curr_hist >? prev_hist)%f64 then JaSteigend else Nein |}
      else Ok v
    else Ok v
  else Ok v.

Definition bearish_check (n : nat) (highs rsis : Series)
  (price_peaks_idx : list nat) (curr_hist prev_hist : float64)
  (v : Verdict) : result Verdict :=
  if (2 <=? length price_peaks_idx)%nat then
    let last_idx := last_of price_peaks_idx in
    let prev_idx := prev_of price_peaks_idx in
    if fresh n last_idx then
      p_last <- loc highs last_idx ;;
      p_prev <- loc highs prev_idx ;;
      r_last <- loc rsis last_idx ;;
      r_prev <- loc rsis prev_idx ;;
      if (p_last >? p_prev)%f64 && (r_last <? r_prev)%f64 then
        Ok {| signal := BearishDiv;
              details := Some {| p_prev := p_prev; p_last := p_last;
                                 r_prev := r_prev; r_last := r_last |};
              macd_conf :=
                if (curr_hist <? prev_hist)%f64 then JaFallend else Nein |}
      else Ok v
    else Ok v
  else Ok v.

Definition neutral : Verdict :=
  {| signal := Neutral; details := None; macd_conf := NoConfirmation |}.

(** The index list bound to [price_valleys_idx]: the first component of the
    pair returned for the lows. *)
Definition price_valleys_idx (df : DataFrame) : result (list nat) :=
  '(first, _) <- find_peaks_valleys (col low df) LOOKBACK ;; Ok first.

(** The index list bound to [price_peaks_idx]: the second component of the
    pair returned for the highs. *)
Definition price_peaks_idx (df : DataFrame) : result (list nat) :=
  '(_, second) <- find_peaks_valleys (col high df) LOOKBACK ;; Ok second.

Definition analyze_market (df : DataFrame) : result Report :=
  let ind := calculate_indicators df in
  valleys_idx <- price_valleys_idx df ;;
  peaks_idx <- price_peaks_idx df ;;
  curr_hist <- iloc (ind_macd_hist ind) (-1) ;;
  prev_hist <- iloc (ind_macd_hist ind) (-2) ;;
  v1 <- bullish_check (length df) (col low df) (ind_rsi ind) valleys_idx
          curr_hist prev_hist neutral ;;
  v2 <- bearish_check (length df) (col high df) (ind_rsi ind) peaks_idx
          curr_hist prev_hist v1 ;;
  last_close <- iloc (col close df) (-1) ;;
  Ok {| price := last_close; verdict := v2 |}.

(** ** main: one timeframe

    [main] calls [analyze_market] only on a frame that is not empty and has
    more than [MACD_SLOW] rows, and adds no row otherwise. *)
Definition scan_timeframe (df : DataFrame) : result (option Report) :=
  if negb (length df =? 0)%nat && (MACD_SLOW <? Z.of_nat (length df))%Z
  then r <- analyze_market df ;; Ok (Some r)
  else Ok None.

(** ** Reading the detector

    [strictly_above s w i] and [strictly_below s w i] say that [s[i]] is
    strictly greater (smaller) than each of its [w] neighbours on both sides;
    [is_peak] and [is_valley] decide them. *)

Definition get (s : Series) (i : nat) : float64 := nth i s NaN.

Definition strictly_above (s : Series) (w i : nat) : Prop :=
  forall j, (1 <= j <= w)%nat ->
    (get s i >? get s (i - j))%f64 = true /\
    (get s i >? get s (i + j))%f64 = true.

Definition strictly_below (s : Series) (w i : nat) : Prop :=
  forall j, (1 <= j <= w)%nat ->
    (get s i <? get s (i - j))%f64 = true /\
    (get s i <? get s (i + j))%f64 = true.

Definition beats (cmp : float64 -> float64 -> bool) (s : Series) (w i : nat)
  : bool :=
  forallb (fun j => cmp (get s i) (get s (i - j))) (window w) &&
  forallb (fun j => cmp (get s i) (get s (i + j))) (window w).

Definition is_peak := beats fgtb.
Definition is_valley := beats fltb.

(** The indices visited by the loop. *)
Definition inspected (s : Series) (w : nat) : list nat :=
  if (length s <? w * 2)%nat then []
  else seq w (length s - w - w).

Definition peaks (s : Series) (w : nat) : list nat :=
  filter (is_peak s w) (inspected s w).

Definition valleys (s : Series) (w : nat) : list nat :=
  filter (is_valley s w) (inspected s w).

(** ** Reading the classifier *)

(** The test made by each check on its index list. *)
Definition bullish_fires (n : nat) (lows rsis : Series) (idx : list nat)
  : bool :=
  (2 <=? length idx)%nat && fresh n (last_of idx) &&
  ((get lows (last_of idx) <? get lows (prev_of idx))%f64 &&
   (get rsis (last_of idx) >? get rsis (prev_of idx))%f64).

Definition bearish_fires (n : nat) (highs rsis : Series) (idx : list nat)
  : bool :=
  (2 <=? length idx)%nat && fresh n (last_of idx) &&
  ((get highs (last_of idx) >? get highs (prev_of idx))%f64 &&
   (get rsis (last_of idx) <? get rsis (prev_of idx))%f64).

Definition details_at (prices rsis : Series) (idx : list nat) : Details :=
  {| p_prev := get prices (prev_of idx); p_last := get prices (last_of idx);
     r_prev := get rsis (prev_of idx); r_last := get rsis (last_of idx) |}.

(** What each check leaves behind, as a function of the verdict so far. *)
Definition bullish_outcome (n : nat) (lows rsis : Series) (idx : list nat)
  (curr prev : float64) (v : Verdict) : Verdict :=
  if bullish_fires n lows rsis idx then
    {| signal := BullishDiv;
       details := Some (details_at lows rsis idx);
       macd_conf := if (curr >? prev)%f64 then JaSteigend else Nein |}
  else v.

Definition bearish_outcome (n : nat) (highs rsis : Series) (idx : list nat)
  (curr prev : float64) (v : Verdict) : Verdict :=
  if bearish_fires n highs rsis idx then
    {| signal := BearishDiv;
       details := Some (details_at highs rsis idx);
       macd_conf := if (curr <? prev)%f64 then JaFallend else Nein |}
  else v.

(** [curr_hist] and [prev_hist]. *)
Definition curr_hist (df : DataFrame) : float64 :=
  get (macd_hist (col close df)) (length df - 1).
Definition prev_hist (df : DataFrame) : float64 :=
  get (macd_hist (col close df)) (length df - 2).

(** The two checks in the order of the program, on the index lists [vs]
    (read by the bullish check) and [ps] (read by the bearish check). *)
Definition classify (df : DataFrame) (vs ps : list nat) : Verdict :=
  let rsis := rsi (col close df) in
  bearish_outcome (length df) (col high df) rsis ps
    (curr_hist df) (prev_hist df)
    (bullish_outcome (length df) (col low df) rsis vs
       (curr_hist df) (prev_hist df) neutral).

(** Distance of an index to the end of the frame. *)
Definition distance (df : DataFrame) (i : nat) : Z :=
  (Z.of_nat (length df) - Z.of_nat i)%Z.

(** ** Reading the averages *)

Definition qval (x : float64) : Q :=
  match x with Fin q => q | _ => 0 end.

Definition nonneg (x : float64) : Prop :=
  match x with Fin q => 0 <= q | _ => False end.

(** The state of the averaging loop after row [i]. *)
Definition ewm_state_at (alpha : Q) (vals : Series) (i : nat) : ewm_state :=
  match vals with
  | [] => ewm_init NaN
  | v0 :: rest => fold_left (ewm_update alpha) (firstn i rest) (ewm_init v0)
  end.

(** The recursive average started on the first value:
    [a 0 = x 0], [a i = alpha * x i + (1 - alpha) * a (i - 1)]. *)
Fixpoint smoothed (alpha : Q) (x : nat -> Q) (i : nat) : Q :=
  match i with
  | O => x O
  | S k => alpha * x (S k) + (1 - alpha) * smoothed alpha x k
  end.

Definition values_of (s : Series) (k : nat) : Q := qval (get s k).

(** The recursion of an EMA of span [span] over [x]: the first value, then
    [alpha * x[k+1] + (1 - alpha) * ema[k]] with [alpha = 2/(span+1)]. *)
Definition ema_recursion (span : Z) (x : Series) : Prop :=
  get (ema span x) 0 = get x 0 /\
  forall k, (S k < length x)%nat ->
    feq (get (ema span x) (S k))
        (Fin (alpha_of_span span) * get x (S k)
         + Fin (1 - alpha_of_span span) * get (ema span x) k)%f64.

(** ** Statements of the specification that are compared with the program *)

(** The bullish rule on the two most recent valleys of the lows. *)
Definition bullish_rule_on_valleys (df : DataFrame) : Prop :=
  forall pk vl,
    find_peaks_valleys (col low df) LOOKBACK = Ok (pk, vl) ->
    (2 <= length vl)%nat ->
    (distance df (last_of vl) < 15)%Z ->
    (get (col low df) (last_of vl) <? get (col low df) (prev_of vl))%f64
      = true ->
    (get (rsi (col close df)) (last_of vl)
       >? get (rsi (col close df)) (prev_of vl))%f64 = true ->
    exists r, analyze_market df = Ok r /\
      signal (verdict r) = BullishDiv /\
      details (verdict r)
        = Some (details_at (col low df) (rsi (col close df)) vl) /\
      macd_conf (verdict r)
        = if (curr_hist df >? prev_hist df)%f64 then JaSteigend else Nein.

(** The bearish rule on the two most recent peaks of the highs holds
    together with the bullish rule on the two most recent valleys of the
    lows. *)
Definition both_patterns_on_extrema (df : DataFrame) : Prop :=
  exists pk_low vl_low pk_high vl_high,
    find_peaks_valleys (col low df) LOOKBACK = Ok (pk_low, vl_low) /\
    find_peaks_valleys (col high df) LOOKBACK = Ok (pk_high, vl_high) /\
    bullish_fires (length df) (col low df) (rsi (col close df)) vl_low
      = true /\
    bearish_fires (length df) (col high df) (rsi (col close df)) pk_high
      = true.

(** Nothing before index [RSI_LENGTH]. *)
Definition undefined_below_length (closes : Series) : Prop :=
  forall i, (i < RSI_LENGTH)%nat ->
    get (avg_gain closes) i = NaN /\ get (avg_loss closes) i = NaN /\
    get (rsi closes) i = NaN.

Definition fsum (s : Series) : float64 := fold_right fadd (Fin 0) s.

(** The mean of the gains at rows [1..RSI_LENGTH] as the first average. *)
Definition mean_of_first_gains (closes : Series) : float64 :=
  (fsum (firstn RSI_LENGTH (skipn 1 (gain closes)))
     / Fin (inject_Z (Z.of_nat RSI_LENGTH)))%f64.

Definition seeded_with_mean (closes : Series) : Prop :=
  feq (get (avg_gain closes) RSI_LENGTH) (mean_of_first_gains closes).

(** Valleys of the lows and peaks of the highs strictly inside
    [[w, N-1-w)]. *)
Definition extrema_strictly_inside (df : DataFrame) (w : nat) : Prop :=
  forall pk_low vl_low pk_high vl_high,
    find_peaks_valleys (col low df) w = Ok (pk_low, vl_low) ->
    find_peaks_valleys (col high df) w = Ok (pk_high, vl_high) ->
    forall i, In i vl_low \/ In i pk_high ->
      (w <= i < length df - 1 - w)%nat.

(** No index both a valley of the lows and a peak of the highs. *)
Definition extrema_apart (df : DataFrame) (w : nat) : Prop :=
  forall pk_low vl_low pk_high vl_high,
    find_peaks_valleys (col low df) w = Ok (pk_low, vl_low) ->
    find_peaks_valleys (col high df) w = Ok (pk_high, vl_high) ->
    forall i, ~ (In i vl_low /\ In i pk_high).

(** A report for the frame, whatever its length. *)
Definition never_raises (df : DataFrame) : Prop :=
  exists r, analyze_market df = Ok r.

(** ** Sample frames *)

Definition quote (z : Z) : float64 := Fin (inject_Z z).

Fixpoint marked (marks : list (Z * Z)) (base : Z) (i : nat) : Z :=
  match marks with
  | [] => base
  | (k, v) :: rest =>
      if (k =? Z.of_nat i)%Z then v else marked rest base i
  end.

(** A frame with the given closes, lows at 500 and highs at 700 except at the
    marked rows. *)
Definition frame (closes : list Z) (low_marks high_marks : list (Z * Z))
  : DataFrame :=
  map (fun '(i, c) =>
         {| timestamp := Z.of_nat i; open := quote c;
            high := quote (marked high_marks 700 i);
            low := quote (marked low_marks 500 i);
            close := quote c; volume := Fin 1 |})
      (combine (seq 0 (length closes)) closes).

(** Thirty-one closes: a steady fall, a sharp three-bar rise, a slower fall. *)
Definition falling_rising_falling : list Z :=
  [595; 593; 591; 589; 587; 585; 583; 581; 579; 577; 575; 573; 571; 569; 567;
   565; 575; 585; 595; 592; 589; 586; 583; 580; 577; 574; 571; 568; 565; 562;
   559]%Z.

(** Lows with valleys at 14 and 21 and peaks at 15 and 22; highs with valleys
    at 18 and 24 and peaks at 19 and 25. *)
Definition frame_all_extrema : DataFrame :=
  frame falling_rising_falling
    [(14, 400); (21, 300); (15, 560); (22, 550)]%Z
    [(18, 600); (24, 610); (19, 800); (25, 900)]%Z.

(** Lows with valleys at 14 and 21 only; highs with peaks at 19 and 25 only. *)
Definition frame_valleys_and_peaks : DataFrame :=
  frame falling_rising_falling
    [(14, 400); (21, 300)]%Z [(19, 800); (25, 900)]%Z.

(** Lows with peaks at 15 and 22, flat highs. *)
Definition frame_low_bumps : DataFrame :=
  frame falling_rising_falling [(15, 560); (22, 550)]%Z [].

(** Lows with peaks at 6 and 22 (row 6 is inside the warm-up of the RSI). *)
Definition frame_early_bump : DataFrame :=
  frame falling_rising_falling [(6, 560); (22, 550)]%Z [].

(** Lows with peaks at 14 and 20, in a frame of 34 rows (row 20 is 14 rows
    from the end) and in the same frame with one more row. *)
Definition frame_distance_14 : DataFrame :=
  frame (falling_rising_falling ++ [556; 553; 550]%Z)
    [(14, 560); (20, 550)]%Z [].

Definition frame_distance_15 : DataFrame :=
  frame (falling_rising_falling ++ [556; 553; 550; 547]%Z)
    [(14, 560); (20, 550)]%Z [].

(** Row 25, the last row the detector inspects in a frame of 31 rows, has
    the lowest low and the highest high of its window. *)
Definition frame_outside_bar : DataFrame :=
  frame falling_rising_falling [(25, 100)]%Z [(25, 900)]%Z.

Definition one_row : DataFrame := frame [550]%Z [] [].
Definition two_rows : DataFrame := frame [550; 551]%Z [] [].

(** Sixteen closes going up by one at every row. *)
Definition rising : Series :=
  map quote [10; 11; 12; 13; 14; 15; 16; 17; 18; 19; 20; 21; 22; 23; 24; 25]%Z.

(** Sixteen closes going up two steps and down one. *)
Definition zigzag : Series :=
  map quote [10; 11; 12; 11; 13; 14; 13; 15; 16; 15; 17; 18; 17; 19; 20; 19]%Z.

(** ** main: the scan over the timeframes

    [fetch_data_requests] talks to the exchange; here it is a function
    [fetch] from the symbol and the interval to the frame it returned (the
    empty frame when the request failed).  [main] asks for each timeframe
    once, in the order of [TIMEFRAMES], and appends a row for every frame
    that passes the guard. *)

Definition SYMBOL_PAIR : string := "BTCUSDT"%string.

Definition TIMEFRAMES : list string :=
  ["15m"; "1h"; "4h"; "1d"]%string.

Record Row : Type := {
  row_timeframe : string;
  row_report : Report
}.

Fixpoint scan_timeframes (fetch : string -> string -> DataFrame)
  (tfs : list string) (results : list Row) : result (list Row) :=
  match tfs with
  | [] => Ok results
  | tf :: rest =>
      o <- scan_timeframe (fetch SYMBOL_PAIR tf) ;;
      match o with
      | Some r =>
          scan_timeframes fetch rest
            (results ++ [{| row_timeframe := tf; row_report := r |}])
      | None => scan_timeframes fetch rest results
      end
  end.

Definition main (fetch : string -> string -> DataFrame) : result (list Row) :=
  scan_timeframes fetch TIMEFRAMES [].

(** ** Shapes of series *)

(** No value is strictly below the one before it. *)
Definition never_falls (s : Series) : Prop :=
  forall i, (S i < length s)%nat -> (get s (S i) <? get s i)%f64 = false.

(** No value is strictly above the one before it. *)
Definition never_rises (s : Series) : Prop :=
  forall i, (S i < length s)%nat -> (get s i <? get s (S i))%f64 = false.

Definition monotone (s : Series) : Prop := never_falls s \/ never_rises s.

(** A frame of 31 rows whose closes rise by one at every row, with lows and
    highs five below and above the close. *)
Definition frame_uptrend : DataFrame :=
  map (fun i : nat =>
         {| timestamp := Z.of_nat i;
            open := quote (500 + Z.of_nat i);
            high := quote (505 + Z.of_nat i);
            low := quote (495 + Z.of_nat i);
            close := quote (500 + Z.of_nat i);
            volume := Fin 1 |})
      (seq 0 31).

(** A frame of 31 rows whose prices do not move. *)
Definition frame_flat : DataFrame := frame (repeat 550%Z 31) [] [].

(** The answers of an exchange that has 31 rows for the first two timeframes,
    fails on the third and has 20 rows for the last. *)
Definition sample_fetch (symbol interval : string) : DataFrame :=
  if String.eqb interval "15m" then frame_all_extrema
  else if String.eqb interval "1h" then frame_low_bumps
  else if String.eqb interval "4h" then []
  else firstn 20 frame_low_bumps.

(** Sixteen closes going down by one at every row. *)
Definition declining : Series :=
  map quote [25; 24; 23; 22; 21; 20; 19; 18; 17; 16; 15; 14; 13; 12; 11; 10]%Z.

(** Sixteen closes between 10 and 20. *)
Definition ranging : Series :=
  map quote [10; 20; 12; 18; 14; 16; 15; 15; 11; 19; 13; 17; 10; 20; 14; 16]%Z.

(** * Properties *)

(** ** The result monad *)

Lemma loc_get (s : Series) (i : nat) :
  (i < length s)%nat -> loc s i = Ok (get s i).
Proof.
  intros Hi. unfold loc, get.
  destruct (nth_error s i) as [x|] eqn:E.
  - now rewrite (nth_error_nth s i NaN E).
  - apply nth_error_None in E. lia.
Qed.

Lemma iloc_from_end (s : Series) (k : nat) :
  (1 <= k <= length s)%nat ->
  iloc s (- Z.of_nat k) = Ok (get s (length s - k)).
Proof.
  intros Hk. unfold iloc. cbv zeta.
  destruct (Z.ltb_spec (- Z.of_nat k) 0); [|lia].
  destruct (Z.leb_spec 0 (Z.of_nat (length s) + - Z.of_nat k)); [|lia].
  destruct (Z.ltb_spec (Z.of_nat (length s) + - Z.of_nat k)
                       (Z.of_nat (length s))); [|lia].
  simpl.
  replace (Z.to_nat (Z.of_nat (length s) + - Z.of_nat k))
    with (length s - k)%nat by lia.
  apply loc_get. lia.
Qed.

Lemma iloc_last (s : Series) :
  (1 <= length s)%nat -> iloc s (-1) = Ok (get s (length s - 1)).
Proof. intros H. apply (iloc_from_end s 1%nat). lia. Qed.

Lemma iloc_before_last (s : Series) :
  (2 <= length s)%nat -> iloc s (-2) = Ok (get s (length s - 2)).
Proof. intros H. apply (iloc_from_end s 2%nat). lia. Qed.

Lemma iloc_short (s : Series) (k : Z) :
  (Z.of_nat (length s) < - k)%Z -> iloc s k = Raise IndexError.
Proof.
  intros Hk. unfold iloc. cbv zeta.
  destruct (Z.ltb_spec k 0); [|lia].
  destruct (Z.leb_spec 0 (Z.of_nat (length s) + k)); [lia|].
  reflexivity.
Qed.

(** ** The detector *)

Section Detector.

Variable series : Series.
Variable lookback : nat.

Lemma all_m_forallb (p : nat -> result bool) (q : nat -> bool)
      (js : list nat) :
  (forall j, In j js -> p j = Ok (q j)) ->
  all_m p js = Ok (forallb q js).
Proof.
  induction js as [|j rest IH]; intros Hp; simpl.
  - reflexivity.
  - rewrite (Hp j (or_introl eq_refl)). simpl.
    destruct (q j); simpl; [|reflexivity].
    apply IH. intros k Hk. apply Hp. now right.
Qed.

Lemma in_window (j : nat) : In j (window lookback) <-> (1 <= j <= lookback)%nat.
Proof. unfold window. rewrite in_seq. lia. Qed.

(** Inside the inspected range every neighbour exists, so no lookup raises
    and the comparison chain is the plain conjunction. *)
Lemma dominates_beats (cmp : float64 -> float64 -> bool) (i : nat) :
  (lookback <= i)%nat -> (i + lookback < length series)%nat ->
  dominates cmp series lookback i (get series i)
  = Ok (beats cmp series lookback i).
Proof.
  intros Hlo Hhi. unfold dominates, and_m, beats.
  rewrite (all_m_forallb _
             (fun j => cmp (get series i) (get series (i - j)))).
  2:{ intros j Hj. apply in_window in Hj.
      rewrite loc_get by lia. reflexivity. }
  simpl.
  destruct (forallb _ (window lookback)); simpl; [|reflexivity].
  apply all_m_forallb. intros j Hj. apply in_window in Hj.
  rewrite loc_get by lia. reflexivity.
Qed.

Lemma scan_filter (idx : list nat) :
  (forall i, In i idx ->
     (lookback <= i)%nat /\ (i + lookback < length series)%nat) ->
  scan series lookback idx
  = Ok (filter (is_peak series lookback) idx,
        filter (is_valley series lookback) idx).
Proof.
  induction idx as [|i rest IH]; intros Hidx; simpl.
  - reflexivity.
  - destruct (Hidx i (or_introl eq_refl)) as [Hlo Hhi].
    rewrite loc_get by lia. simpl.
    rewrite !dominates_beats by assumption. simpl.
    rewrite IH by (intros k Hk; apply Hidx; now right). simpl.
    reflexivity.
Qed.

Lemma in_inspected (i : nat) :
  In i (inspected series lookback)
  <-> (lookback <= i)%nat /\ (i + lookback < length series)%nat.
Proof.
  unfold inspected.
  destruct (Nat.ltb_spec (length series) (lookback * 2)) as [Hs|Hs].
  - simpl. lia.
  - rewrite in_seq. lia.
Qed.

(** The function never raises and returns the two filtered index lists. *)
Lemma find_peaks_valleys_ok :
  find_peaks_valleys series lookback
  = Ok (peaks series lookback, valleys series lookback).
Proof.
  unfold find_peaks_valleys, peaks, valleys, inspected.
  destruct (Nat.ltb_spec (length series) (lookback * 2)) as [Hs|Hs].
  - reflexivity.
  - apply scan_filter. intros i Hi. apply in_seq in Hi. lia.
Qed.

Lemma beats_spec (cmp : float64 -> float64 -> bool) (i : nat) :
  beats cmp series lookback i = true
  <-> forall j, (1 <= j <= lookback)%nat ->
        cmp (get series i) (get series (i - j)) = true /\
        cmp (get series i) (get series (i + j)) = true.
Proof.
  unfold beats. rewrite andb_true_iff, !forallb_forall. split.
  - intros [Hl Hr] j Hj. apply in_window in Hj. auto.
  - intros H. split; intros j Hj; apply in_window in Hj; now apply H.
Qed.

Lemma in_peaks (i : nat) :
  In i (peaks series lookback)
  <-> ((lookback <= i)%nat /\ (i + lookback < length series)%nat) /\
      strictly_above series lookback i.
Proof.
  unfold peaks, is_peak, strictly_above.
  now rewrite filter_In, in_inspected, beats_spec.
Qed.

Lemma in_valleys (i : nat) :
  In i (valleys series lookback)
  <-> ((lookback <= i)%nat /\ (i + lookback < length series)%nat) /\
      strictly_below series lookback i.
Proof.
  unfold valleys, is_valley, strictly_below.
  now rewrite filter_In, in_inspected, beats_spec.
Qed.

Lemma inspected_increasing : StronglySorted lt (inspected series lookback).
Proof.
  unfold inspected. destruct (_ <? _)%nat; [constructor|].
  generalize (length series - lookback - lookback)%nat as n.
  generalize lookback as a.
  intros a n. revert a.
  induction n as [|n IH]; intros a; simpl; constructor.
  - apply IH.
  - apply Forall_forall. intros k Hk. apply in_seq in Hk. lia.
Qed.

Lemma filter_increasing (f : nat -> bool) (l : list nat) :
  StronglySorted lt l -> StronglySorted lt (filter f l).
Proof.
  induction 1 as [|a l Hs IH Ha]; simpl; [constructor|].
  destruct (f a); [|exact IH].
  constructor; [exact IH|].
  apply Forall_forall. intros k Hk. apply filter_In in Hk.
  rewrite Forall_forall in Ha. now apply Ha.
Qed.

End Detector.

Lemma fltb_irrefl_eq (x y : float64) :
  feq x y -> (x <? y)%f64 = false /\ (y <? x)%f64 = false.
Proof.
  destruct x as [| | |p], y as [| | |q]; simpl; try tauto.
  intros E. unfold Qltb.
  assert (H1 : Qle_bool q p = true) by (apply Qle_bool_iff; rewrite E; apply Qle_refl).
  assert (H2 : Qle_bool p q = true) by (apply Qle_bool_iff; rewrite E; apply Qle_refl).
  now rewrite H1, H2.
Qed.

Lemma fltb_asym (x y : float64) :
  (x <? y)%f64 = true -> (y <? x)%f64 = false.
Proof.
  destruct x as [| | |p], y as [| | |q]; simpl; try congruence.
  unfold Qltb. rewrite !negb_true_iff, negb_false_iff.
  intros H. apply Qle_bool_iff.
  destruct (Qlt_le_dec q p) as [Hlt|Hle]; [|exact Hle].
  apply Qlt_le_weak in Hlt. apply Qle_bool_iff in Hlt. congruence.
Qed.

(** ** Lengths of the derived series *)

Lemma map2_length (f : float64 -> float64 -> float64) (a b : Series) :
  length (map2 f a b) = Nat.min (length a) (length b).
Proof.
  revert b. induction a as [|x a IH]; intros [|y b]; simpl; auto.
Qed.

Lemma diff_from_length (prev : float64) (s : Series) :
  length (diff_from prev s) = length s.
Proof.
  revert prev. induction s as [|x s IH]; intros prev; simpl; auto.
Qed.

Lemma diff_length (s : Series) : length (diff s) = length s.
Proof. destruct s; simpl; [reflexivity|]. now rewrite diff_from_length. Qed.

Lemma ewm_loop_length (alpha : Q) (minp : nat) (st : ewm_state) (vals : Series) :
  length (ewm_loop alpha minp st vals) = length vals.
Proof.
  revert st. induction vals as [|x vals IH]; intros st; simpl; auto.
Qed.

Lemma ewm_mean_length (alpha : Q) (min_periods : nat) (vals : Series) :
  length (ewm_mean alpha min_periods vals) = length vals.
Proof.
  destruct vals; simpl; [reflexivity|]. now rewrite ewm_loop_length.
Qed.

Lemma gain_length (closes : Series) : length (gain closes) = length closes.
Proof. unfold gain, where_, delta. now rewrite length_map, diff_length. Qed.

Lemma loss_length (closes : Series) : length (loss closes) = length closes.
Proof. unfold loss, where_, delta. now rewrite !length_map, diff_length. Qed.

Lemma avg_gain_length (closes : Series) :
  length (avg_gain closes) = length closes.
Proof. unfold avg_gain. now rewrite ewm_mean_length, gain_length. Qed.

Lemma avg_loss_length (closes : Series) :
  length (avg_loss closes) = length closes.
Proof. unfold avg_loss. now rewrite ewm_mean_length, loss_length. Qed.

Lemma rs_length (closes : Series) : length (rs closes) = length closes.
Proof.
  unfold rs. rewrite map2_length, avg_gain_length, avg_loss_length.
  apply Nat.min_id.
Qed.

Lemma rsi_length (closes : Series) : length (rsi closes) = length closes.
Proof. unfold rsi. now rewrite length_map, rs_length. Qed.

Lemma ema_length (span : Z) (s : Series) : length (ema span s) = length s.
Proof. apply ewm_mean_length. Qed.

Lemma macd_line_length (closes : Series) :
  length (macd_line closes) = length closes.
Proof.
  unfold macd_line. rewrite map2_length, !ema_length.
  apply Nat.min_id.
Qed.

Lemma signal_line_length (closes : Series) :
  length (signal_line closes) = length closes.
Proof. unfold signal_line. now rewrite ema_length, macd_line_length. Qed.

Lemma macd_hist_length (closes : Series) :
  length (macd_hist closes) = length closes.
Proof.
  unfold macd_hist.
  rewrite map2_length, signal_line_length, macd_line_length.
  apply Nat.min_id.
Qed.

Lemma col_length (field : Candle -> float64) (df : DataFrame) :
  length (col field df) = length df.
Proof. apply length_map. Qed.

(** ** The classifier *)

Lemma last_of_in (l : list nat) : (1 <= length l)%nat -> In (last_of l) l.
Proof. intros H. apply nth_In. lia. Qed.

Lemma prev_of_in (l : list nat) : (2 <= length l)%nat -> In (prev_of l) l.
Proof. intros H. apply nth_In. lia. Qed.

Section Checks.

Variables (n : nat) (prices rsis : Series) (idx : list nat).
Variables (curr prev : float64) (v : Verdict).
Hypothesis idx_in_range : forall i, In i idx -> (i < length prices)%nat.
Hypothesis rsis_aligned : length rsis = length prices.

Lemma bullish_check_outcome :
  bullish_check n prices rsis idx curr prev v
  = Ok (bullish_outcome n prices rsis idx curr prev v).
Proof.
  unfold bullish_check, bullish_outcome, bullish_fires.
  destruct (Nat.leb_spec 2 (length idx)) as [H2|H2]; simpl; [|reflexivity].
  destruct (fresh n (last_of idx)); simpl; [|reflexivity].
  pose proof (idx_in_range _ (last_of_in idx ltac:(lia))) as Hl.
  pose proof (idx_in_range _ (prev_of_in idx H2)) as Hp.
  rewrite !loc_get by lia. simpl.
  destruct (_ && _); reflexivity.
Qed.

Lemma bearish_check_outcome :
  bearish_check n prices rsis idx curr prev v
  = Ok (bearish_outcome n prices rsis idx curr prev v).
Proof.
  unfold bearish_check, bearish_outcome, bearish_fires.
  destruct (Nat.leb_spec 2 (length idx)) as [H2|H2]; simpl; [|reflexivity].
  destruct (fresh n (last_of idx)); simpl; [|reflexivity].
  pose proof (idx_in_range _ (last_of_in idx ltac:(lia))) as Hl.
  pose proof (idx_in_range _ (prev_of_in idx H2)) as Hp.
  rewrite !loc_get by lia. simpl.
  destruct (_ && _); reflexivity.
Qed.

End Checks.

(** The list bound to [price_valleys_idx] holds the peaks of the lows, the
    list bound to [price_peaks_idx] the valleys of the highs. *)
Lemma price_valleys_idx_ok (df : DataFrame) :
  price_valleys_idx df = Ok (peaks (col low df) LOOKBACK).
Proof.
  unfold price_valleys_idx. now rewrite find_peaks_valleys_ok.
Qed.

Lemma price_peaks_idx_ok (df : DataFrame) :
  price_peaks_idx df = Ok (valleys (col high df) LOOKBACK).
Proof.
  unfold price_peaks_idx. now rewrite find_peaks_valleys_ok.
Qed.

Lemma analyze_market_ok (df : DataFrame) :
  (2 <= length df)%nat ->
  analyze_market df
  = Ok {| price := get (col close df) (length df - 1);
          verdict := classify df (peaks (col low df) LOOKBACK)
                       (valleys (col high df) LOOKBACK) |}.
Proof.
  intros Hn. unfold analyze_market, calculate_indicators, classify.
  cbv zeta. simpl ind_macd_hist. simpl ind_rsi.
  rewrite price_valleys_idx_ok, price_peaks_idx_ok. simpl.
  pose proof (macd_hist_length (col close df)) as Hh.
  pose proof (col_length close df) as Hc.
  rewrite iloc_last by lia. simpl.
  rewrite iloc_before_last by lia. simpl.
  rewrite bullish_check_outcome.
  2:{ intros i Hi. apply in_peaks in Hi. lia. }
  2:{ rewrite rsi_length, !col_length. reflexivity. }
  simpl. rewrite bearish_check_outcome.
  2:{ intros i Hi. apply in_valleys in Hi. lia. }
  2:{ rewrite rsi_length, !col_length. reflexivity. }
  simpl. rewrite iloc_last by lia. simpl.
  unfold curr_hist, prev_hist. rewrite Hh, Hc. reflexivity.
Qed.

Lemma analyze_market_short (df : DataFrame) :
  (length df < 2)%nat -> analyze_market df = Raise IndexError.
Proof.
  intros Hn. unfold analyze_market, calculate_indicators.
  cbv zeta. simpl ind_macd_hist.
  rewrite price_valleys_idx_ok, price_peaks_idx_ok. simpl.
  pose proof (macd_hist_length (col close df)) as Hh.
  pose proof (col_length close df) as Hc.
  destruct (Nat.eq_dec (length df) 0) as [H0|H0].
  - rewrite iloc_short by lia. reflexivity.
  - rewrite iloc_last by lia. simpl. rewrite iloc_short by lia. reflexivity.
Qed.

(** ** The averaging loop *)

Lemma get_map (f : float64 -> float64) (s : Series) (i : nat) :
  (i < length s)%nat -> get (map f s) i = f (get s i).
Proof.
  intros Hi. unfold get.
  rewrite (nth_indep (map f s) NaN (f NaN)) by now rewrite length_map.
  apply map_nth.
Qed.

Lemma get_map2 (f : float64 -> float64 -> float64) (a b : Series) (i : nat) :
  (i < length a)%nat -> (i < length b)%nat ->
  get (map2 f a b) i = f (get a i) (get b i).
Proof.
  unfold get. revert b i.
  induction a as [|x a IH]; intros [|y b] [|i] Ha Hb; simpl in *; try lia.
  - reflexivity.
  - apply IH; lia.
Qed.

Section Ewm.

Variable alpha : Q.
Variable minp : nat.

Lemma ewm_loop_get (vals : Series) (st : ewm_state) (i : nat) :
  (i < length vals)%nat ->
  get (ewm_loop alpha minp st vals) i
  = ewm_out minp (fold_left (ewm_update alpha) (firstn (S i) vals) st).
Proof.
  unfold get. revert st i.
  induction vals as [|x vals IH]; intros st [|i] Hi; simpl in *; try lia.
  - reflexivity.
  - apply IH. lia.
Qed.

Lemma firstn_succ (l : Series) (i : nat) :
  (i < length l)%nat -> firstn (S i) l = firstn i l ++ [nth i l NaN].
Proof.
  revert i. induction l as [|y l IH]; intros [|i] Hi; simpl in *; try lia.
  - reflexivity.
  - f_equal. apply IH. lia.
Qed.

Lemma ewm_state_at_succ (vals : Series) (i : nat) :
  (S i < length vals)%nat ->
  ewm_state_at alpha vals (S i)
  = ewm_update alpha (ewm_state_at alpha vals i) (get vals (S i)).
Proof.
  destruct vals as [|v0 rest]; [simpl; lia|]. intros Hi. simpl in Hi.
  unfold ewm_state_at, get. cbn [nth].
  rewrite firstn_succ by lia.
  rewrite fold_left_app. reflexivity.
Qed.

End Ewm.

Lemma ewm_mean_get (alpha : Q) (min_periods : nat) (vals : Series) (i : nat) :
  (i < length vals)%nat ->
  get (ewm_mean alpha min_periods vals) i
  = ewm_out (Nat.max min_periods 1) (ewm_state_at alpha vals i).
Proof.
  destruct vals as [|v0 rest]; simpl; [lia|]. intros Hi.
  destruct i as [|i].
  - reflexivity.
  - unfold get. simpl nth. apply ewm_loop_get. lia.
Qed.

Lemma Qeq_bool_false (x y : Q) : ~ x == y -> Qeq_bool x y = false.
Proof.
  intros H. destruct (Qeq_bool x y) eqn:E; [|reflexivity].
  apply Qeq_bool_iff in E. contradiction.
Qed.

(** One step of the loop on finite values is the textbook recursion. *)
Lemma ewm_update_finite (alpha : Q) (st : ewm_state) (w c : Q) :
  weighted st = Fin w -> old_wt st = 1 ->
  let st' := ewm_update alpha st (Fin c) in
  feq (weighted st') (Fin (alpha * c + (1 - alpha) * w)) /\
  old_wt st' = 1 /\ nobs st' = S (nobs st).
Proof.
  intros Hw Ho. unfold ewm_update. rewrite Hw, Ho. simpl.
  destruct (Qeq_bool w c) eqn:E; simpl.
  - apply Qeq_bool_iff in E. repeat split. rewrite E. ring.
  - rewrite Qeq_bool_false by (intros H; lra). simpl.
    repeat split. field; lra.
Qed.

Lemma ewm_state_finite (alpha : Q) (vals : Series) (i : nat) :
  Forall is_finite vals -> (i < length vals)%nat ->
  let st := ewm_state_at alpha vals i in
  feq (weighted st) (Fin (smoothed alpha (values_of vals) i)) /\
  old_wt st = 1 /\ nobs st = S i.
Proof.
  intros Hfin. induction i as [|i IH]; intros Hi.
  - destruct vals as [|v0 rest]; simpl in *; [lia|].
    inversion Hfin as [|? ? Hv0 _]; subst.
    destruct v0; simpl in *; try contradiction.
    unfold values_of, get. simpl. repeat split; reflexivity.
  - cbv zeta. rewrite ewm_state_at_succ by assumption.
    destruct IH as (Hw & Ho & Hn); [lia|].
    assert (Hc : is_finite (get vals (S i))).
    { rewrite Forall_forall in Hfin. apply Hfin. apply nth_In. exact Hi. }
    destruct (get vals (S i)) as [| | |c] eqn:Ec; simpl in Hc; try contradiction.
    destruct (weighted (ewm_state_at alpha vals i)) as [| | |w] eqn:Ew;
      simpl in Hw; try contradiction.
    destruct (ewm_update_finite alpha (ewm_state_at alpha vals i) w c Ew Ho)
      as (Hw' & Ho' & Hn').
    split; [|split; [exact Ho'|rewrite Hn', Hn; reflexivity]].
    destruct (weighted (ewm_update alpha (ewm_state_at alpha vals i) (Fin c)));
      simpl in *; try contradiction.
    rewrite Hw'. unfold values_of at 1. rewrite Ec. simpl. rewrite Hw.
    reflexivity.
Qed.

(** The average of a finite series: hidden until [min_periods] rows were
    seen, the recursive average from then on. *)
Lemma ewm_mean_finite (alpha : Q) (min_periods : nat) (vals : Series) (i : nat) :
  Forall is_finite vals -> (i < length vals)%nat ->
  feq (get (ewm_mean alpha min_periods vals) i)
      (if (Nat.max min_periods 1 <=? S i)%nat
       then Fin (smoothed alpha (values_of vals) i) else NaN).
Proof.
  intros Hfin Hi. rewrite ewm_mean_get by assumption.
  destruct (ewm_state_finite alpha vals i Hfin Hi) as (Hw & _ & Hn).
  unfold ewm_out. rewrite Hn.
  destruct (_ <=? _)%nat; [exact Hw|exact I].
Qed.

Lemma smoothed_nonneg (alpha : Q) (x : nat -> Q) (i : nat) :
  0 <= alpha <= 1 -> (forall k, 0 <= x k) -> 0 <= smoothed alpha x i.
Proof.
  intros Ha Hx. induction i as [|i IH]; simpl.
  - apply Hx.
  - specialize (Hx (S i)). nra.
Qed.

(** ** Gains, losses and the RSI formula *)

Lemma Qltb_lt (x y : Q) : Qltb x y = true <-> x < y.
Proof.
  unfold Qltb. rewrite negb_true_iff. split.
  - intros H. apply Qnot_le_lt. intros Hle.
    apply Qle_bool_iff in Hle. congruence.
  - intros H. destruct (Qle_bool y x) eqn:E; [|reflexivity].
    apply Qle_bool_iff in E. lra.
Qed.

Lemma nonneg_finite (x : float64) : nonneg x -> is_finite x.
Proof. destruct x; simpl; tauto. Qed.

Lemma diff_from_finite (prev : float64) (s : Series) :
  is_finite prev -> Forall is_finite s -> Forall is_finite (diff_from prev s).
Proof.
  intros Hp Hs. revert prev Hp.
  induction Hs as [|x s Hx Hs IH]; intros prev Hp; simpl; constructor.
  - destruct x, prev; simpl in *; tauto.
  - apply IH. exact Hx.
Qed.

Lemma diff_finite_or_nan (s : Series) :
  Forall is_finite s -> Forall (fun d => d = NaN \/ is_finite d) (diff s).
Proof.
  intros Hs. destruct Hs as [|x s Hx Hs]; simpl; constructor.
  - now left.
  - eapply Forall_impl; [|apply (diff_from_finite x s Hx Hs)].
    intros d Hd. now right.
Qed.

Lemma gain_nonneg (closes : Series) :
  Forall is_finite closes -> Forall nonneg (gain closes).
Proof.
  intros Hc. unfold gain, where_, delta. apply Forall_map.
  eapply Forall_impl; [|apply (diff_finite_or_nan closes Hc)].
  intros d [->|Hd]; simpl.
  - lra.
  - destruct d as [| | |q]; simpl in Hd; try contradiction.
    unfold fgtb. simpl. destruct (Qltb 0 q) eqn:E; simpl.
    + apply Qltb_lt in E. lra.
    + lra.
Qed.

Lemma loss_nonneg (closes : Series) :
  Forall is_finite closes -> Forall nonneg (loss closes).
Proof.
  intros Hc. unfold loss, where_, delta. rewrite map_map. apply Forall_map.
  eapply Forall_impl; [|apply (diff_finite_or_nan closes Hc)].
  intros d [->|Hd]; simpl.
  - lra.
  - destruct d as [| | |q]; simpl in Hd; try contradiction.
    simpl. destruct (Qltb q 0) eqn:E; simpl.
    + apply Qltb_lt in E. lra.
    + lra.
Qed.

Lemma gain_first (closes : Series) :
  (1 <= length closes)%nat -> get (gain closes) 0 = Fin 0.
Proof. destruct closes; simpl; [lia|reflexivity]. Qed.

Lemma loss_first (closes : Series) :
  (1 <= length closes)%nat -> feq (get (loss closes) 0) (Fin 0).
Proof. destruct closes; simpl; [lia|]. intros _. ring. Qed.

Lemma values_of_nonneg (s : Series) (k : nat) :
  Forall nonneg s -> 0 <= values_of s k.
Proof.
  intros Hs. unfold values_of, get.
  destruct (Nat.lt_ge_cases k (length s)) as [Hk|Hk].
  - rewrite Forall_forall in Hs. specialize (Hs _ (nth_In s NaN Hk)).
    destruct (nth k s NaN); simpl in *; try contradiction. exact Hs.
  - rewrite nth_overflow by exact Hk. simpl. lra.
Qed.

Lemma rsi_alpha_value : rsi_alpha == 1 # 14.
Proof. reflexivity. Qed.

(** An average of non-negative finite values: hidden (NaN) on the first
    thirteen rows, a non-negative number afterwards. *)
Lemma rsi_average_get (vals : Series) (i : nat) :
  Forall nonneg vals -> (i < length vals)%nat ->
  feq (get (ewm_mean rsi_alpha RSI_LENGTH vals) i)
      (if (i <? 13)%nat then NaN
       else Fin (smoothed rsi_alpha (values_of vals) i)) /\
  0 <= smoothed rsi_alpha (values_of vals) i.
Proof.
  intros Hv Hi. split.
  - pose proof (ewm_mean_finite rsi_alpha RSI_LENGTH vals i
                  (Forall_impl _ nonneg_finite Hv) Hi) as H.
    change (Nat.max RSI_LENGTH 1) with 14%nat in H.
    destruct (Nat.leb_spec 14 (S i)), (Nat.ltb_spec i 13);
      try lia; exact H.
  - apply smoothed_nonneg.
    + pose proof rsi_alpha_value. lra.
    + intros k. now apply values_of_nonneg.
Qed.

Lemma rsi_get (closes : Series) (i : nat) :
  (i < length closes)%nat ->
  get (rsi closes) i
  = rsi_of (get (avg_gain closes) i / get (avg_loss closes) i)%f64.
Proof.
  intros Hi. unfold rsi, rs.
  rewrite get_map.
  - rewrite get_map2; [reflexivity| |].
    + now rewrite avg_gain_length.
    + now rewrite avg_loss_length.
  - rewrite map2_length, avg_gain_length, avg_loss_length. lia.
Qed.

Lemma rsi_formula_bounds (t : Q) :
  0 <= t -> 0 <= 100 + - (100 / (1 + t)) /\ 100 + - (100 / (1 + t)) <= 100.
Proof.
  intros Ht.
  assert (Hd : 0 < 1 + t) by lra.
  assert (H1 : 100 / (1 + t) <= 100)
    by (apply Qle_shift_div_r; [exact Hd|lra]).
  assert (H2 : 0 <= 100 / (1 + t))
    by (apply Qle_shift_div_l; [exact Hd|lra]).
  lra.
Qed.

Lemma rsi_of_ratio_range (a l : float64) :
  a = NaN \/ nonneg a -> l = NaN \/ nonneg l ->
  rsi_of (a / l)%f64 = NaN \/ in_range 0 100 (rsi_of (a / l)%f64).
Proof.
  intros [->|Ha] [->|Hl]; try (left; reflexivity).
  - destruct a; left; reflexivity.
  - destruct a as [| | |p]; simpl in Ha; try contradiction.
    destruct l as [| | |q]; simpl in Hl; try contradiction.
    unfold fdiv. destruct (Qeq_bool q 0) eqn:Eq0.
    + unfold inf_times. destruct (p ?= 0) eqn:Ep.
      * left. reflexivity.
      * right. simpl. lra.
      * right. simpl. lra.
    + apply Qeq_bool_neq in Eq0.
      assert (Hq : 0 < q) by (apply Qle_lteq in Hl; destruct Hl as [Hl|Hl];
                              [exact Hl|symmetry in Hl; contradiction]).
      assert (Ht : 0 <= p / q) by (apply Qle_shift_div_l; [exact Hq|lra]).
      right. unfold rsi_of, fsub, fadd, fopp.
      set (t := p / q) in *.
      unfold fdiv. rewrite Qeq_bool_false by lra.
      unfold in_range. apply rsi_formula_bounds. exact Ht.
Qed.

Lemma rsi_of_no_loss (a l : float64) (g : Q) :
  feq l (Fin 0) -> a = Fin g -> 0 < g -> feq (rsi_of (a / l)%f64) (Fin 100).
Proof.
  intros Hl -> Hg. destruct l as [| | |q]; simpl in Hl; try contradiction.
  unfold fdiv. rewrite (Qeq_eq_bool _ _ Hl).
  unfold inf_times. rewrite (proj1 (Qgt_alt g 0) Hg).
  simpl. ring.
Qed.

Lemma nonneg_feq (x y : float64) : feq x y -> nonneg y -> nonneg x.
Proof.
  destruct x, y; simpl; try tauto. intros E H. rewrite E. exact H.
Qed.

Lemma feq_nan (x : float64) : feq x NaN -> x = NaN.
Proof. destruct x; simpl; tauto. Qed.

Lemma feq_refl (x : float64) : feq x x.
Proof. destruct x; simpl; auto. reflexivity. Qed.

(** Both averages of a finite close series at row [i]: NaN on the first
    thirteen rows, non-negative numbers afterwards. *)
Lemma averages_shape (closes : Series) (i : nat) :
  Forall is_finite closes -> (i < length closes)%nat ->
  (get (avg_gain closes) i = NaN \/ nonneg (get (avg_gain closes) i)) /\
  (get (avg_loss closes) i = NaN \/ nonneg (get (avg_loss closes) i)).
Proof.
  intros Hc Hi. unfold avg_gain, avg_loss.
  destruct (rsi_average_get (gain closes) i (gain_nonneg closes Hc))
    as [Hg Hg0]; [now rewrite gain_length|].
  destruct (rsi_average_get (loss closes) i (loss_nonneg closes Hc))
    as [Hl Hl0]; [now rewrite loss_length|].
  destruct (i <? 13)%nat.
  - split; left; now apply feq_nan.
  - split; right; eapply nonneg_feq; eauto.
Qed.

(** ** The order of the two checks *)

Lemma fresh_distance (df : DataFrame) (i : nat) :
  fresh (length df) i = true <-> (distance df i < 15)%Z.
Proof. unfold fresh, distance. apply Z.ltb_lt. Qed.

Lemma bullish_fires_iff (df : DataFrame) (rsis : Series) (idx : list nat) :
  bullish_fires (length df) (col low df) rsis idx = true
  <-> (2 <= length idx)%nat /\ (distance df (last_of idx) < 15)%Z /\
      (get (col low df) (last_of idx) <? get (col low df) (prev_of idx))%f64
        = true /\
      (get rsis (last_of idx) >? get rsis (prev_of idx))%f64 = true.
Proof.
  unfold bullish_fires.
  rewrite !andb_true_iff, Nat.leb_le, fresh_distance. tauto.
Qed.

Lemma bearish_fires_iff (df : DataFrame) (rsis : Series) (idx : list nat) :
  bearish_fires (length df) (col high df) rsis idx = true
  <-> (2 <= length idx)%nat /\ (distance df (last_of idx) < 15)%Z /\
      (get (col high df) (last_of idx) >? get (col high df) (prev_of idx))%f64
        = true /\
      (get rsis (last_of idx) <? get rsis (prev_of idx))%f64 = true.
Proof.
  unfold bearish_fires.
  rewrite !andb_true_iff, Nat.leb_le, fresh_distance. tauto.
Qed.

(** The bearish check is the last to write: when it fires its verdict
    stands, whatever the bullish check found. *)
Lemma classify_bearish_last (df : DataFrame) (vs ps : list nat) :
  bearish_fires (length df) (col high df) (rsi (col close df)) ps = true ->
  classify df vs ps
  = {| signal := BearishDiv;
       details := Some (details_at (col high df) (rsi (col close df)) ps);
       macd_conf :=
         if (curr_hist df <? prev_hist df)%f64 then JaFallend else Nein |}.
Proof. intros H. unfold classify, bearish_outcome. now rewrite H. Qed.

Lemma classify_bullish_only (df : DataFrame) (vs ps : list nat) :
  bearish_fires (length df) (col high df) (rsi (col close df)) ps = false ->
  bullish_fires (length df) (col low df) (rsi (col close df)) vs = true ->
  classify df vs ps
  = {| signal := BullishDiv;
       details := Some (details_at (col low df) (rsi (col close df)) vs);
       macd_conf :=
         if (curr_hist df >? prev_hist df)%f64 then JaSteigend else Nein |}.
Proof.
  intros Hb Hu. unfold classify, bearish_outcome, bullish_outcome.
  now rewrite Hb, Hu.
Qed.

Lemma classify_neutral (df : DataFrame) (vs ps : list nat) :
  bearish_fires (length df) (col high df) (rsi (col close df)) ps = false ->
  bullish_fires (length df) (col low df) (rsi (col close df)) vs = false ->
  classify df vs ps = neutral.
Proof.
  intros Hb Hu. unfold classify, bearish_outcome, bullish_outcome.
  now rewrite Hb, Hu.
Qed.

Lemma classify_signal (df : DataFrame) (vs ps : list nat) :
  signal (classify df vs ps)
  = if bearish_fires (length df) (col high df) (rsi (col close df)) ps
    then BearishDiv
    else if bullish_fires (length df) (col low df) (rsi (col close df)) vs
         then BullishDiv else Neutral.
Proof.
  unfold classify, bearish_outcome, bullish_outcome.
  destruct (bearish_fires _ _ _ _); [reflexivity|].
  destruct (bullish_fires _ _ _ _); reflexivity.
Qed.

(** The index lists of a frame, and the length of a frame that has two
    indices in one of them. *)
Lemma index_lists (df : DataFrame) (vs ps : list nat) :
  price_valleys_idx df = Ok vs -> price_peaks_idx df = Ok ps ->
  vs = peaks (col low df) LOOKBACK /\ ps = valleys (col high df) LOOKBACK.
Proof.
  rewrite price_valleys_idx_ok, price_peaks_idx_ok.
  intros [= <-] [= <-]. split; reflexivity.
Qed.

Lemma peaks_need_rows (df : DataFrame) (field : Candle -> float64) :
  (1 <= length (peaks (col field df) LOOKBACK))%nat -> (2 <= length df)%nat.
Proof.
  intros H. pose proof (last_of_in _ H) as Hin.
  apply in_peaks in Hin. rewrite col_length in Hin.
  unfold LOOKBACK in Hin. lia.
Qed.

Lemma valleys_need_rows (df : DataFrame) (field : Candle -> float64) :
  (1 <= length (valleys (col field df) LOOKBACK))%nat -> (2 <= length df)%nat.
Proof.
  intros H. pose proof (last_of_in _ H) as Hin.
  apply in_valleys in Hin. rewrite col_length in Hin.
  unfold LOOKBACK in Hin. lia.
Qed.

(** * The claims *)

(** C1, as stated.  On [frame_all_extrema] the two most recent valleys of the
    lows (rows 14 and 21) show a lower low with a higher RSI less than 15 rows
    from the end, and the classifier does not answer BullishDiv: the bearish
    check, which runs afterwards, fires as well and its verdict stands. *)
Lemma bullish_rule_overridden : ~ bullish_rule_on_valleys frame_all_extrema.
Proof.
  intros H.
  destruct (H [15; 22]%nat [14; 21]%nat) as (r & Hr & Hs & _).
  - vm_compute. reflexivity.
  - simpl. lia.
  - vm_compute. reflexivity.
  - vm_compute. reflexivity.
  - vm_compute. reflexivity.
  - rewrite analyze_market_ok in Hr by (vm_compute; lia).
    injection Hr as <-.
    cbn [verdict] in Hs. rewrite classify_signal in Hs.
    vm_compute in Hs. discriminate.
Qed.

(** On the same frame the peaks of the highs show the bearish pattern as
    well, and the signal is BearishDiv. *)
Example all_extrema_bearish :
  both_patterns_on_extrema frame_all_extrema /\
  exists r, analyze_market frame_all_extrema = Ok r /\
            signal (verdict r) = BearishDiv.
Proof.
  split.
  - exists [15; 22]%nat, [14; 21]%nat, [19; 25]%nat, [18; 24]%nat.
    repeat split; vm_compute; reflexivity.
  - eexists. split.
    + apply analyze_market_ok. vm_compute. lia.
    + cbn [verdict]. rewrite classify_signal. vm_compute. reflexivity.
Qed.

(** C1, amended.  Let [vs] be the index list read by the bullish check and
    [ps] the one read by the bearish check, [vs] with at least two indices,
    last and prev its two most recent ones.  The classifier returns a report.
    If the last index is less than 15 rows from the end, the low at last is
    strictly below the low at prev and the RSI at last strictly above the RSI
    at prev, then: when the bearish check fires too the signal is BearishDiv;
    otherwise the signal is BullishDiv, the details hold the previous and last
    low and RSI, and the confirmation is JaSteigend when
    histogram[N-1] > histogram[N-2] and Nein otherwise.  When the two lows or
    the two RSI values are equal the signal is not BullishDiv. *)
Theorem bullish_divergence_unless_bearish (df : DataFrame) (vs ps : list nat) :
  price_valleys_idx df = Ok vs ->
  price_peaks_idx df = Ok ps ->
  (2 <= length vs)%nat ->
  exists r, analyze_market df = Ok r /\
    ((distance df (last_of vs) < 15)%Z ->
     (get (col low df) (last_of vs) <? get (col low df) (prev_of vs))%f64
       = true ->
     (get (rsi (col close df)) (last_of vs)
        >? get (rsi (col close df)) (prev_of vs))%f64 = true ->
     if bearish_fires (length df) (col high df) (rsi (col close df)) ps
     then signal (verdict r) = BearishDiv
     else signal (verdict r) = BullishDiv /\
          details (verdict r)
            = Some (details_at (col low df) (rsi (col close df)) vs) /\
          macd_conf (verdict r)
            = if (get (macd_hist (col close df)) (length df - 1)
                    >? get (macd_hist (col close df)) (length df - 2))%f64
              then JaSteigend else Nein) /\
    (feq (get (col low df) (last_of vs)) (get (col low df) (prev_of vs)) \/
     feq (get (rsi (col close df)) (last_of vs))
         (get (rsi (col close df)) (prev_of vs)) ->
     signal (verdict r) <> BullishDiv).
Proof.
  intros Hvs Hps H2.
  destruct (index_lists df vs ps Hvs Hps) as [Evs Eps].
  assert (Hn : (2 <= length df)%nat)
    by (apply (peaks_need_rows df low); rewrite <- Evs; lia).
  eexists. split.
  - rewrite analyze_market_ok by exact Hn. rewrite <- Evs, <- Eps. reflexivity.
  - cbn [verdict]. split.
    + intros Hd Hlow Hrsi.
      assert (Hfire : bullish_fires (length df) (col low df)
                        (rsi (col close df)) vs = true)
        by (apply bullish_fires_iff; auto).
      destruct (bearish_fires _ _ _ ps) eqn:Hb.
      * rewrite classify_bearish_last by exact Hb. reflexivity.
      * rewrite classify_bullish_only by assumption. auto.
    + intros Htie. rewrite classify_signal.
      destruct (bearish_fires _ _ _ ps); [discriminate|].
      destruct (bullish_fires _ _ _ vs) eqn:Hu; [|discriminate].
      apply bullish_fires_iff in Hu. destruct Hu as (_ & _ & Hlow & Hrsi).
      destruct Htie as [Ht|Ht]; apply fltb_irrefl_eq in Ht;
        unfold fgtb in *; destruct Ht; congruence.
Qed.

(** Witness of C1 amended: [frame_low_bumps], where only the bullish check
    fires. *)
Lemma bullish_divergence_unless_bearish_witness :
  exists r, analyze_market frame_low_bumps = Ok r /\
    signal (verdict r) = BullishDiv.
Proof.
  destruct (bullish_divergence_unless_bearish frame_low_bumps
              [15; 22]%nat []%list)
    as (r & Hr & Hfire & _).
  - vm_compute. reflexivity.
  - vm_compute. reflexivity.
  - simpl. lia.
  - exists r. split; [exact Hr|].
    assert (Hd : (distance frame_low_bumps (last_of [15; 22]%nat) < 15)%Z)
      by (vm_compute; reflexivity).
    specialize (Hfire Hd).
    assert (Hl : (get (col low frame_low_bumps) (last_of [15; 22]%nat)
                  <? get (col low frame_low_bumps) (prev_of [15; 22]%nat))%f64
                 = true) by (vm_compute; reflexivity).
    specialize (Hfire Hl).
    assert (Hm : (get (rsi (col close frame_low_bumps)) (last_of [15; 22]%nat)
                  >? get (rsi (col close frame_low_bumps))
                       (prev_of [15; 22]%nat))%f64
                 = true) by (vm_compute; reflexivity).
    specialize (Hfire Hm).
    assert (Hb : bearish_fires (length frame_low_bumps)
                   (col high frame_low_bumps)
                   (rsi (col close frame_low_bumps)) [] = false)
      by (vm_compute; reflexivity).
    rewrite Hb in Hfire. destruct Hfire as (Hs & _).
    exact Hs.
Defined.

(** C2, evaluated.  On [frame_valleys_and_peaks] the two most recent valleys
    of the lows show the bullish pattern and the two most recent peaks of the
    highs show the bearish pattern, both less than 15 rows from the end, and
    the classifier answers Neutral: the list bound to [price_valleys_idx] is
    the first component of the pair returned by the detector (the peaks of
    the lows) and the list bound to [price_peaks_idx] the second component
    (the valleys of the highs); both are empty on this frame. *)
Theorem bearish_override_missed :
  both_patterns_on_extrema frame_valleys_and_peaks /\
  price_valleys_idx frame_valleys_and_peaks = Ok [] /\
  price_peaks_idx frame_valleys_and_peaks = Ok [] /\
  exists r, analyze_market frame_valleys_and_peaks = Ok r /\
            verdict r = neutral.
Proof.
  split; [|split; [|split]].
  - exists []%list, [14; 21]%nat, [19; 25]%nat, []%list.
    repeat split; vm_compute; reflexivity.
  - vm_compute. reflexivity.
  - vm_compute. reflexivity.
  - eexists. split.
    + apply analyze_market_ok. vm_compute. lia.
    + cbn [verdict]. apply classify_neutral; vm_compute; reflexivity.
Qed.

Lemma fltb_nan_l (x : float64) : (NaN <? x)%f64 = false.
Proof. reflexivity. Qed.

Lemma fltb_nan_r (x : float64) : (x <? NaN)%f64 = false.
Proof. destruct x; reflexivity. Qed.

Lemma bullish_stale (df : DataFrame) (rsis : Series) (idx : list nat) :
  (15 <= distance df (last_of idx))%Z ->
  bullish_fires (length df) (col low df) rsis idx = false.
Proof.
  intros H. destruct (bullish_fires _ _ _ _) eqn:E; [|reflexivity].
  apply bullish_fires_iff in E. lia.
Qed.

Lemma bearish_stale (df : DataFrame) (rsis : Series) (idx : list nat) :
  (15 <= distance df (last_of idx))%Z ->
  bearish_fires (length df) (col high df) rsis idx = false.
Proof.
  intros H. destruct (bearish_fires _ _ _ _) eqn:E; [|reflexivity].
  apply bearish_fires_iff in E. lia.
Qed.

Lemma bullish_undefined (n : nat) (lows rsis : Series) (idx : list nat) :
  get rsis (last_of idx) = NaN \/ get rsis (prev_of idx) = NaN ->
  bullish_fires n lows rsis idx = false.
Proof.
  intros H. unfold bullish_fires, fgtb.
  destruct H as [-> | ->]; rewrite ?fltb_nan_l, ?fltb_nan_r;
    now rewrite !andb_false_r.
Qed.

Lemma bearish_undefined (n : nat) (highs rsis : Series) (idx : list nat) :
  get rsis (last_of idx) = NaN \/ get rsis (prev_of idx) = NaN ->
  bearish_fires n highs rsis idx = false.
Proof.
  intros H. unfold bearish_fires.
  destruct H as [-> | ->]; rewrite ?fltb_nan_l, ?fltb_nan_r;
    now rewrite !andb_false_r.
Qed.

(** C3.  Let [vs] and [ps] be the index lists read by the bullish and by the
    bearish check.  A BullishDiv (BearishDiv) signal is returned only when the
    most recent index of [vs] (of [ps]) is less than 15 rows from the end of
    the frame.  A most recent index exactly 15 rows from the end never gives
    its divergence, and when both most recent indices are 15 rows or more
    from the end the verdict is Neutral.  At 14 rows from the end a list
    with two indices and the pattern of its check gives the divergence (for
    the bullish one, when the bearish check does not fire). *)
Theorem freshness_gate (df : DataFrame) (vs ps : list nat) :
  price_valleys_idx df = Ok vs ->
  price_peaks_idx df = Ok ps ->
  (2 <= length df)%nat ->
  exists r, analyze_market df = Ok r /\
    (signal (verdict r) = BullishDiv ->
     (distance df (last_of vs) < 15)%Z) /\
    (signal (verdict r) = BearishDiv ->
     (distance df (last_of ps) < 15)%Z) /\
    (distance df (last_of vs) = 15%Z -> signal (verdict r) <> BullishDiv) /\
    (distance df (last_of ps) = 15%Z -> signal (verdict r) <> BearishDiv) /\
    ((15 <= distance df (last_of vs))%Z ->
     (15 <= distance df (last_of ps))%Z -> verdict r = neutral) /\
    ((2 <= length ps)%nat -> distance df (last_of ps) = 14%Z ->
     (get (col high df) (last_of ps) >? get (col high df) (prev_of ps))%f64
       = true ->
     (get (rsi (col close df)) (last_of ps)
        <? get (rsi (col close df)) (prev_of ps))%f64 = true ->
     signal (verdict r) = BearishDiv) /\
    ((2 <= length vs)%nat -> distance df (last_of vs) = 14%Z ->
     (get (col low df) (last_of vs) <? get (col low df) (prev_of vs))%f64
       = true ->
     (get (rsi (col close df)) (last_of vs)
        >? get (rsi (col close df)) (prev_of vs))%f64 = true ->
     bearish_fires (length df) (col high df) (rsi (col close df)) ps
       = false ->
     signal (verdict r) = BullishDiv).
Proof.
  intros Hvs Hps Hn.
  destruct (index_lists df vs ps Hvs Hps) as [Evs Eps].
  eexists. split.
  - rewrite analyze_market_ok by exact Hn. rewrite <- Evs, <- Eps. reflexivity.
  - cbn [verdict]. rewrite classify_signal.
    repeat split.
    + destruct (bearish_fires _ _ _ ps); [discriminate|].
      destruct (bullish_fires _ _ _ vs) eqn:E; [|discriminate].
      intros _. apply bullish_fires_iff in E. tauto.
    + destruct (bearish_fires _ _ _ ps) eqn:E.
      * intros _. apply bearish_fires_iff in E. tauto.
      * destruct (bullish_fires _ _ _ vs); discriminate.
    + intros Hd. rewrite (bullish_stale df _ vs) by lia.
      destruct (bearish_fires _ _ _ ps); discriminate.
    + intros Hd. rewrite (bearish_stale df _ ps) by lia. 
      destruct (bullish_fires _ _ _ vs); discriminate.
    + intros Hv Hp. apply classify_neutral.
      * now apply bearish_stale.
      * now apply bullish_stale.
    + intros H2 Hd Hh Hr.
      assert (E : bearish_fires (length df) (col high df)
                    (rsi (col close df)) ps = true)
        by (apply bearish_fires_iff; repeat split; auto; lia).
      now rewrite E.
    + intros H2 Hd Hl Hr Hb.
      assert (E : bullish_fires (length df) (col low df)
                    (rsi (col close df)) vs = true)
        by (apply bullish_fires_iff; repeat split; auto; lia).
      now rewrite Hb, E.
Qed.

(** Witness of C3: in [frame_distance_14] the most recent index of the
    bullish list is 14 rows from the end and the divergence is reported. *)
Lemma freshness_gate_witness :
  exists r, analyze_market frame_distance_14 = Ok r /\
    signal (verdict r) = BullishDiv.
Proof.
  destruct (freshness_gate frame_distance_14 [14; 20]%nat []%list)
    as (r & Hr & _ & _ & _ & _ & _ & _ & H14).
  - vm_compute. reflexivity.
  - vm_compute. reflexivity.
  - vm_compute. lia.
  - exists r. split; [exact Hr|].
    apply H14.
    + simpl. lia.
    + vm_compute. reflexivity.
    + vm_compute. reflexivity.
    + vm_compute. reflexivity.
    + vm_compute. reflexivity.
Defined.

(** The same rows with one more row after them: the most recent index is
    15 rows from the end and the verdict is Neutral. *)
Example distance_15_is_stale :
  price_valleys_idx frame_distance_15 = Ok [14; 20]%nat /\
  distance frame_distance_15 20 = 15%Z /\
  (get (col low frame_distance_15) 20
     <? get (col low frame_distance_15) 14)%f64 = true /\
  (get (rsi (col close frame_distance_15)) 20
     >? get (rsi (col close frame_distance_15)) 14)%f64 = true /\
  exists r, analyze_market frame_distance_15 = Ok r /\ verdict r = neutral.
Proof.
  split; [vm_compute; reflexivity|].
  split; [vm_compute; reflexivity|].
  split; [vm_compute; reflexivity|].
  split; [vm_compute; reflexivity|].
  eexists. split.
  - apply analyze_market_ok. vm_compute. lia.
  - cbn [verdict]. apply classify_neutral; vm_compute; reflexivity.
Qed.

(** C5.  [find_peaks_valleys] never raises.  For every index i in
    [[W, N-W)], i is among the returned peaks exactly when S[i] is strictly
    greater than S[i-j] and S[i+j] for every j in [[1, W]], and among the
    returned valleys exactly when it is strictly smaller than all of them; no
    other index is returned; an index with a neighbour of equal value in its
    window is in neither list; for N < 2W both lists are empty; both lists
    are in ascending order. *)
Theorem extrema_detector_spec (series : Series) (lookback : nat) :
  exists pk vl,
    find_peaks_valleys series lookback = Ok (pk, vl) /\
    (forall i, (lookback <= i < length series - lookback)%nat ->
       (In i pk <-> strictly_above series lookback i) /\
       (In i vl <-> strictly_below series lookback i)) /\
    (forall i, In i pk \/ In i vl ->
       (lookback <= i < length series - lookback)%nat) /\
    (forall i j, (1 <= j <= lookback)%nat ->
       feq (get series i) (get series (i - j)) \/
       feq (get series i) (get series (i + j)) ->
       ~ In i pk /\ ~ In i vl) /\
    ((length series < 2 * lookback)%nat -> pk = [] /\ vl = []) /\
    StronglySorted lt pk /\ StronglySorted lt vl.
Proof.
  exists (peaks series lookback), (valleys series lookback).
  split; [apply find_peaks_valleys_ok|].
  split; [|split; [|split; [|split; [|split]]]].
  - intros i Hi. rewrite in_peaks, in_valleys. split; split; try tauto.
    + intros H. split; [lia|exact H].
    + intros H. split; [lia|exact H].
  - intros i [Hi|Hi]; [apply in_peaks in Hi|apply in_valleys in Hi]; lia.
  - intros i j Hj Htie. rewrite in_peaks, in_valleys.
    split; intros [_ Hs]; destruct (Hs j Hj) as [Hl Hr];
      destruct Htie as [Ht|Ht]; apply fltb_irrefl_eq in Ht;
      unfold fgtb in *; destruct Ht; congruence.
  - intros Hshort. unfold peaks, valleys, inspected.
    replace (length series <? lookback * 2)%nat with true
      by (symmetry; apply Nat.ltb_lt; lia).
    split; reflexivity.
  - apply filter_increasing, inspected_increasing.
  - apply filter_increasing, inspected_increasing.
Qed.

(** A run of the detector: thirteen values, lookback 2, and the case N = 9
    with lookback 5. *)
Example detector_runs :
  find_peaks_valleys (map quote [1; 2; 3; 2; 1; 0; 1; 2; 3; 4; 3; 2; 1]%Z) 2
  = Ok ([2; 9]%nat, [5]%nat) /\
  find_peaks_valleys (map quote [1; 2; 3; 2; 1; 0; 1; 2; 3]%Z) 5
  = Ok ([], []).
Proof. split; reflexivity. Qed.

(** C8, as stated.  [analyze_market] raises IndexError on the empty frame
    and on a frame of one row: it reads the last two values of the
    histogram. *)
Lemma short_frames_raise : ~ never_raises [] /\ ~ never_raises one_row.
Proof.
  split; intros [r Hr]; rewrite analyze_market_short in Hr;
    try discriminate; simpl; lia.
Qed.

(** C8, amended.  On every frame of at least two rows [analyze_market]
    returns a report; on a shorter frame it raises IndexError.  [main]
    calls it only on frames of more than 26 rows and adds no row for the
    others, so the evaluation of a timeframe in [main] never raises. *)
Theorem reports_from_two_rows (df : DataFrame) :
  ((2 <= length df)%nat -> exists r, analyze_market df = Ok r) /\
  ((length df < 2)%nat -> analyze_market df = Raise IndexError) /\
  exists o, scan_timeframe df = Ok o /\
            (o = None <-> (length df <= 26)%nat).
Proof.
  split; [|split].
  - intros Hn. eexists. apply analyze_market_ok. exact Hn.
  - apply analyze_market_short.
  - unfold scan_timeframe, MACD_SLOW.
    destruct (Nat.eqb_spec (length df) 0) as [H0|H0]; simpl.
    + exists None. split; [reflexivity|]. split; [lia|reflexivity].
    + destruct (Z.ltb_spec 26 (Z.of_nat (length df))) as [Hl|Hl].
      * rewrite analyze_market_ok by lia. simpl.
        eexists. split; [reflexivity|]. split; [discriminate|lia].
      * exists None. split; [reflexivity|]. split; [lia|reflexivity].
Qed.

(** Witness of C8 amended: a frame of two rows. *)
Lemma reports_from_two_rows_witness :
  exists r, analyze_market two_rows = Ok r.
Proof.
  apply (proj1 (reports_from_two_rows two_rows)). simpl. lia.
Defined.

(** C9, as stated.  In [frame_outside_bar] (N = 31, lookback 5) row 25 is a
    valley of the lows and a peak of the highs: it is not below N-1-5 = 25,
    and it is in both sets. *)
Lemma extrema_on_last_row_and_shared :
  ~ extrema_strictly_inside frame_outside_bar LOOKBACK /\
  ~ extrema_apart frame_outside_bar LOOKBACK.
Proof.
  assert (Hlow : find_peaks_valleys (col low frame_outside_bar) LOOKBACK
                 = Ok ([], [25]%nat)) by (vm_compute; reflexivity).
  assert (Hhigh : find_peaks_valleys (col high frame_outside_bar) LOOKBACK
                  = Ok ([25]%nat, [])) by (vm_compute; reflexivity).
  split; intros H.
  - specialize (H _ _ _ _ Hlow Hhigh 25%nat (or_introl (or_introl eq_refl))).
    simpl in H. lia.
  - apply (H _ _ _ _ Hlow Hhigh 25%nat). split; left; reflexivity.
Qed.

(** C9, amended.  Every index returned by [find_peaks_valleys] on a series
    of length N with lookback w lies in [[w, N-w)], that is between w and
    N-1-w included; for w >= 1 no index is both a peak and a valley of the
    same series. *)
Theorem extrema_within_inspected_rows
  (s : Series) (w : nat) (pk vl : list nat) :
  find_peaks_valleys s w = Ok (pk, vl) ->
  (forall i, In i pk \/ In i vl ->
     (w <= i)%nat /\ (i + w < length s)%nat /\ (i <= length s - 1 - w)%nat) /\
  ((1 <= w)%nat -> forall i, ~ (In i pk /\ In i vl)).
Proof.
  rewrite find_peaks_valleys_ok. intros [= <- <-]. split.
  - intros i [Hi|Hi]; [apply in_peaks in Hi|apply in_valleys in Hi]; lia.
  - intros Hw i [Hp Hv]. apply in_peaks in Hp. apply in_valleys in Hv.
    destruct Hp as [_ Hp], Hv as [_ Hv].
    destruct (Hp 1%nat ltac:(lia)) as [Hp1 _].
    destruct (Hv 1%nat ltac:(lia)) as [Hv1 _].
    unfold fgtb in Hp1. apply fltb_asym in Hv1. congruence.
Qed.

(** Witness of C9 amended: the lows of [frame_outside_bar], whose only
    valley is row 25 = N-1-5. *)
Lemma extrema_within_inspected_rows_witness :
  find_peaks_valleys (col low frame_outside_bar) 5 = Ok ([], [25]%nat) /\
  (5 <= 25)%nat /\ (25 + 5 < length (col low frame_outside_bar))%nat /\
  (25 <= length (col low frame_outside_bar) - 1 - 5)%nat.
Proof.
  assert (Hlow : find_peaks_valleys (col low frame_outside_bar) 5
                 = Ok ([], [25]%nat)) by (vm_compute; reflexivity).
  split; [exact Hlow|].
  destruct (extrema_within_inspected_rows
              (col low frame_outside_bar) 5 []%list [25]%nat Hlow)
    as [Hr _].
  exact (Hr 25%nat (or_intror (or_introl eq_refl))).
Defined.

(** C10.  Let [vs] and [ps] be the index lists read by the bullish and by
    the bearish check.  On a frame of at least two rows the classifier
    returns a report.  If the RSI is NaN at one of the two most recent
    indices of [vs], the bullish check does not fire: the signal is not
    BullishDiv and the verdict is the one the bearish check alone gives.  If
    the RSI is NaN at one of the two most recent indices of [ps], the
    bearish check does not fire: the signal is not BearishDiv and the verdict
    of the bullish check stays.  If both hold the verdict is Neutral. *)
Theorem undefined_rsi_suppresses_check (df : DataFrame) (vs ps : list nat) :
  price_valleys_idx df = Ok vs ->
  price_peaks_idx df = Ok ps ->
  (2 <= length df)%nat ->
  let rsis := rsi (col close df) in
  let undefined_at (idx : list nat) :=
    get rsis (last_of idx) = NaN \/ get rsis (prev_of idx) = NaN in
  exists r, analyze_market df = Ok r /\
    (undefined_at vs ->
     signal (verdict r) <> BullishDiv /\
     verdict r = bearish_outcome (length df) (col high df) rsis ps
                   (curr_hist df) (prev_hist df) neutral) /\
    (undefined_at ps ->
     signal (verdict r) <> BearishDiv /\
     verdict r = bullish_outcome (length df) (col low df) rsis vs
                   (curr_hist df) (prev_hist df) neutral) /\
    (undefined_at vs -> undefined_at ps -> verdict r = neutral).
Proof.
  intros Hvs Hps Hn rsis undefined_at.
  destruct (index_lists df vs ps Hvs Hps) as [Evs Eps].
  eexists. split.
  - rewrite analyze_market_ok by exact Hn. rewrite <- Evs, <- Eps. reflexivity.
  - cbn [verdict]. split; [|split].
    + intros Hu. apply (bullish_undefined (length df) (col low df)) in Hu.
      split.
      * rewrite classify_signal. fold rsis. rewrite Hu.
        destruct (bearish_fires _ _ _ ps); discriminate.
      * unfold classify, bullish_outcome. fold rsis. now rewrite Hu.
    + intros Hu. apply (bearish_undefined (length df) (col high df)) in Hu.
      split.
      * rewrite classify_signal. fold rsis. rewrite Hu.
        destruct (bullish_fires _ _ _ vs); discriminate.
      * unfold classify, bearish_outcome. fold rsis. now rewrite Hu.
    + intros Hv Hp. apply classify_neutral.
      * now apply bearish_undefined.
      * now apply bullish_undefined.
Qed.

(** Witness of C10: in [frame_early_bump] the bullish list is [[6; 22]], the
    low at 22 is below the low at 6, row 22 is fresh, and the RSI at row 6 is
    NaN. *)
Lemma undefined_rsi_suppresses_check_witness :
  (get (col low frame_early_bump) 22 <? get (col low frame_early_bump) 6)%f64
    = true /\
  exists r, analyze_market frame_early_bump = Ok r /\ verdict r = neutral.
Proof.
  split; [vm_compute; reflexivity|].
  destruct (undefined_rsi_suppresses_check frame_early_bump
              [6; 22]%nat []%list)
    as (r & Hr & _ & _ & Hboth).
  - vm_compute. reflexivity.
  - vm_compute. reflexivity.
  - vm_compute. lia.
  - exists r. split; [exact Hr|]. apply Hboth.
    + right. vm_compute. reflexivity.
    + left. vm_compute. reflexivity.
Defined.

(** ** Recursion of the averages, on the series themselves *)

Lemma Forall_get (P : float64 -> Prop) (s : Series) :
  (forall i, (i < length s)%nat -> P (get s i)) -> Forall P s.
Proof.
  intros H. apply Forall_forall. intros x Hx.
  destruct (In_nth s x NaN Hx) as (n & Hn & <-). now apply H.
Qed.

Lemma get_finite (s : Series) (i : nat) :
  Forall is_finite s -> (i < length s)%nat -> is_finite (get s i).
Proof.
  intros Hs Hi. rewrite Forall_forall in Hs. apply Hs. now apply nth_In.
Qed.

Lemma feq_fin (x : float64) (q : Q) :
  feq x (Fin q) -> exists p, x = Fin p /\ p == q.
Proof.
  destruct x as [| | |p]; simpl; try contradiction. intros E. now exists p.
Qed.

Lemma ewm_mean_step (alpha : Q) (min_periods : nat) (vals : Series) (k : nat) :
  Forall is_finite vals -> (S k < length vals)%nat ->
  (Nat.max min_periods 1 <= S k)%nat ->
  feq (get (ewm_mean alpha min_periods vals) (S k))
      (Fin alpha * get vals (S k)
       + Fin (1 - alpha) * get (ewm_mean alpha min_periods vals) k)%f64.
Proof.
  intros Hfin Hk Hmin.
  pose proof (ewm_mean_finite alpha min_periods vals (S k) Hfin Hk) as H1.
  pose proof (ewm_mean_finite alpha min_periods vals k Hfin ltac:(lia)) as H0.
  destruct (Nat.leb_spec (Nat.max min_periods 1) (S (S k))); [|lia].
  destruct (Nat.leb_spec (Nat.max min_periods 1) (S k)); [|lia].
  apply feq_fin in H1. destruct H1 as (e & -> & He).
  apply feq_fin in H0. destruct H0 as (w & -> & Hw).
  pose proof (get_finite vals (S k) Hfin Hk) as Hc.
  cbn [smoothed] in He. unfold values_of at 1 in He.
  destruct (get vals (S k)) as [| | |c]; simpl in Hc; try contradiction.
  simpl. simpl in He. rewrite He, Hw. reflexivity.
Qed.

Lemma ewm_mean_first (alpha : Q) (vals : Series) :
  get (ewm_mean alpha 0 vals) 0 = get vals 0.
Proof.
  destruct vals as [|v0 rest]; [reflexivity|].
  unfold get. simpl. unfold ewm_out, ewm_init. simpl.
  destruct v0; reflexivity.
Qed.

Lemma ema_follows_recursion (span : Z) (x : Series) :
  Forall is_finite x -> ema_recursion span x.
Proof.
  intros Hx. split.
  - apply ewm_mean_first.
  - intros k Hk. apply ewm_mean_step; [exact Hx|exact Hk|simpl; lia].
Qed.

Lemma ema_finite (span : Z) (x : Series) :
  Forall is_finite x -> Forall is_finite (ema span x).
Proof.
  intros Hx. apply Forall_get. intros i Hi. rewrite ema_length in Hi.
  pose proof (ewm_mean_finite (alpha_of_span span) 0 x i Hx Hi) as H.
  destruct (Nat.leb_spec (Nat.max 0 1) (S i)); [|simpl in *; lia].
  apply feq_fin in H. destruct H as (e & He & _).
  unfold ema. rewrite He. exact I.
Qed.

Lemma map2_fsub_finite (a b : Series) :
  Forall is_finite a -> Forall is_finite b ->
  Forall is_finite (map2 fsub a b).
Proof.
  intros Ha. revert b.
  induction Ha as [|x a Hx Ha IH]; intros b Hb; simpl; [constructor|].
  destruct Hb as [|y b Hy Hb]; constructor.
  - destruct x, y; simpl in *; tauto.
  - now apply IH.
Qed.

Lemma macd_line_finite (closes : Series) :
  Forall is_finite closes -> Forall is_finite (macd_line closes).
Proof.
  intros Hc. unfold macd_line.
  apply map2_fsub_finite; now apply ema_finite.
Qed.

Lemma macd_hist_finite (closes : Series) :
  Forall is_finite closes -> Forall is_finite (macd_hist closes).
Proof.
  intros Hc. unfold macd_hist, signal_line.
  apply map2_fsub_finite.
  - now apply macd_line_finite.
  - now apply ema_finite, macd_line_finite.
Qed.

(** C4, as stated.  On [zigzag] the averages and the RSI are defined at row
    13, below RSI_LENGTH = 14, and the average gain at row 14 is not the mean
    of the gains of rows 1 to 14. *)
Lemma warm_up_shorter_and_unseeded :
  ~ undefined_below_length zigzag /\ ~ seeded_with_mean zigzag.
Proof.
  split; intros H.
  - destruct (H 13%nat ltac:(unfold RSI_LENGTH; lia)) as (Hg & _).
    vm_compute in Hg. discriminate.
  - unfold seeded_with_mean in H. vm_compute in H. discriminate.
Qed.

(** C4, amended.  For a finite close series and L = RSI_LENGTH = 14, the
    average gain and the average loss are NaN at rows 0..L-2 and defined from
    row L-1 on.  Their value at row i is the recursive average
    [a 0 = x 0], [a k = (1/L) * x k + (1 - 1/L) * a (k-1)] of the gains
    (losses), started at row 0 where the gain and the loss are 0; from row L
    on, avg[i] = (1/L) * x[i] + (1 - 1/L) * avg[i-1] holds on the series
    themselves.  The RSI at row i is 100 - 100/(1 + avgGain[i]/avgLoss[i])
    and is NaN for i < L-1. *)
Theorem averages_defined_from_row_13 (closes : Series) (i : nat) :
  Forall is_finite closes -> (i < length closes)%nat ->
  feq (get (avg_gain closes) i)
      (if (i <? RSI_LENGTH - 1)%nat then NaN
       else Fin (smoothed rsi_alpha (values_of (gain closes)) i)) /\
  feq (get (avg_loss closes) i)
      (if (i <? RSI_LENGTH - 1)%nat then NaN
       else Fin (smoothed rsi_alpha (values_of (loss closes)) i)) /\
  values_of (gain closes) 0 == 0 /\
  values_of (loss closes) 0 == 0 /\
  ((RSI_LENGTH <= i)%nat ->
   feq (get (avg_gain closes) i)
       (Fin rsi_alpha * get (gain closes) i
        + Fin (1 - rsi_alpha) * get (avg_gain closes) (i - 1))%f64 /\
   feq (get (avg_loss closes) i)
       (Fin rsi_alpha * get (loss closes) i
        + Fin (1 - rsi_alpha) * get (avg_loss closes) (i - 1))%f64) /\
  get (rsi closes) i
    = rsi_of (get (avg_gain closes) i / get (avg_loss closes) i)%f64 /\
  ((i < RSI_LENGTH - 1)%nat -> get (rsi closes) i = NaN).
Proof.
  intros Hc Hi.
  pose proof (gain_nonneg closes Hc) as Hg.
  pose proof (loss_nonneg closes Hc) as Hl.
  assert (Hgi : (i < length (gain closes))%nat) by now rewrite gain_length.
  assert (Hli : (i < length (loss closes))%nat) by now rewrite loss_length.
  destruct (rsi_average_get (gain closes) i Hg Hgi) as [Ag _].
  destruct (rsi_average_get (loss closes) i Hl Hli) as [Al _].
  change (RSI_LENGTH - 1)%nat with 13%nat.
  split; [exact Ag|]. split; [exact Al|].
  split.
  { unfold values_of. rewrite gain_first by lia. reflexivity. }
  split.
  { unfold values_of. pose proof (loss_first closes ltac:(lia)) as H.
    destruct (get (loss closes) 0); simpl in *; try contradiction. exact H. }
  split.
  { intros HL. unfold RSI_LENGTH in HL.
    destruct i as [|k]; [lia|]. replace (S k - 1)%nat with k by lia.
    split; apply ewm_mean_step;
      try (eapply Forall_impl; [apply nonneg_finite|eassumption]);
      try assumption; simpl; lia. }
  split; [now apply rsi_get|].
  intros Hw. rewrite rsi_get by exact Hi.
  destruct (Nat.ltb_spec i 13); [|lia].
  apply feq_nan in Ag. unfold avg_gain. rewrite Ag. reflexivity.
Qed.

(** Witness of C4 amended: row 13 of [zigzag]. *)
Lemma averages_defined_from_row_13_witness :
  is_finite (get (avg_gain zigzag) 13) /\ get (rsi zigzag) 12 = NaN.
Proof.
  assert (Hz : Forall is_finite zigzag) by (repeat constructor).
  split.
  - destruct (averages_defined_from_row_13 zigzag 13 Hz
                ltac:(simpl; lia)) as (Ag & _).
    simpl Nat.ltb in Ag. cbv iota in Ag.
    destruct (get (avg_gain zigzag) 13); simpl in Ag; try contradiction.
    exact I.
  - destruct (averages_defined_from_row_13 zigzag 12 Hz
                ltac:(simpl; lia)) as (_ & _ & _ & _ & _ & _ & Hr).
    apply Hr. unfold RSI_LENGTH. lia.
Defined.

(** C6.  For a finite close series and every row i of it:
    histogram[i] = trendLine[i] - signalLine[i], with
    trendLine = EMA(close, 12) - EMA(close, 26) and
    signalLine = EMA(trendLine, 9); each of the three EMAs starts on the
    first value of its input and follows
    ema[k+1] = alpha * x[k+1] + (1 - alpha) * ema[k], alpha = 2/(span+1);
    the histogram has the length of the series and is a number on every row,
    from row 0 on. *)
Theorem macd_histogram_spec (closes : Series) (i : nat) :
  Forall is_finite closes -> (i < length closes)%nat ->
  get (macd_hist closes) i
    = (get (macd_line closes) i - get (signal_line closes) i)%f64 /\
  get (macd_line closes) i
    = (get (ema 12 closes) i - get (ema 26 closes) i)%f64 /\
  signal_line closes = ema 9 (macd_line closes) /\
  ema_recursion 12 closes /\ ema_recursion 26 closes /\
  ema_recursion 9 (macd_line closes) /\
  alpha_of_span 12 == 2 # 13 /\ alpha_of_span 26 == 2 # 27 /\
  alpha_of_span 9 == 2 # 10 /\
  length (macd_hist closes) = length closes /\
  is_finite (get (macd_hist closes) i).
Proof.
  intros Hc Hi.
  split.
  { unfold macd_hist. apply get_map2.
    - now rewrite macd_line_length.
    - now rewrite signal_line_length. }
  split.
  { unfold macd_line. apply get_map2; now rewrite ema_length. }
  split; [reflexivity|].
  split; [now apply ema_follows_recursion|].
  split; [now apply ema_follows_recursion|].
  split; [now apply ema_follows_recursion, macd_line_finite|].
  split; [reflexivity|]. split; [reflexivity|]. split; [reflexivity|].
  split; [apply macd_hist_length|].
  apply get_finite.
  - now apply macd_hist_finite.
  - now rewrite macd_hist_length.
Qed.

(** Witness of C6: row 0 of [zigzag]. *)
Lemma macd_histogram_spec_witness :
  is_finite (get (macd_hist zigzag) 0) /\ get (ema 12 zigzag) 0 = quote 10.
Proof.
  assert (Hz : Forall is_finite zigzag) by (repeat constructor).
  destruct (macd_histogram_spec zigzag 0 Hz ltac:(simpl; lia))
    as (_ & _ & _ & [H0 _] & _ & _ & _ & _ & _ & _ & Hf).
  split; [exact Hf|exact H0].
Defined.

(** C7.  For a finite close series, wherever the RSI is defined (not NaN)
    it lies in [[0, 100]]; where the average loss is 0 and the average gain
    is positive it is exactly 100. *)
Theorem rsi_bounded (closes : Series) (i : nat) :
  Forall is_finite closes -> (i < length closes)%nat ->
  (get (rsi closes) i <> NaN -> in_range 0 100 (get (rsi closes) i)) /\
  (forall g, feq (get (avg_loss closes) i) (Fin 0) ->
             get (avg_gain closes) i = Fin g -> 0 < g ->
             feq (get (rsi closes) i) (Fin 100)).
Proof.
  intros Hc Hi. rewrite rsi_get by exact Hi.
  destruct (averages_shape closes i Hc Hi) as [Ha Hl].
  split.
  - intros Hdef.
    destruct (rsi_of_ratio_range _ _ Ha Hl) as [H|H];
      [contradiction|exact H].
  - intros g H0 Hg Hpos. now apply (rsi_of_no_loss _ _ g).
Qed.

(** Witness of C7: row 13 of [zigzag] is in range, row 14 of [rising] is
    exactly 100. *)
Lemma rsi_bounded_witness :
  in_range 0 100 (get (rsi zigzag) 13) /\ feq (get (rsi rising) 14) (Fin 100).
Proof.
  split.
  - apply (proj1 (rsi_bounded zigzag 13 ltac:(repeat constructor)
                    ltac:(simpl; lia))).
    vm_compute. discriminate.
  - eapply (proj2 (rsi_bounded rising 14 ltac:(repeat constructor)
                     ltac:(simpl; lia))).
    + vm_compute. reflexivity.
    + vm_compute. reflexivity.
    + vm_compute. reflexivity.
Defined.

(** * Further properties of the detector *)

Lemma sorted_nth_lt (l : list nat) (i j : nat) :
  StronglySorted lt l -> (i < j)%nat -> (j < length l)%nat ->
  (nth i l 0 < nth j l 0)%nat.
Proof.
  intros Hs. revert i j.
  induction Hs as [|a l Hs IH Ha]; intros i j Hij Hj; simpl in Hj; [lia|].
  destruct j as [|j]; [lia|]. destruct i as [|i]; simpl.
  - rewrite Forall_forall in Ha. apply Ha. apply nth_In. lia.
  - apply IH; lia.
Qed.

Lemma peaks_sorted (s : Series) (w : nat) : StronglySorted lt (peaks s w).
Proof. apply filter_increasing, inspected_increasing. Qed.

Lemma valleys_sorted (s : Series) (w : nat) : StronglySorted lt (valleys s w).
Proof. apply filter_increasing, inspected_increasing. Qed.

Lemma no_member_nil (l : list nat) : (forall i, ~ In i l) -> l = [].
Proof.
  destruct l as [|a l]; [reflexivity|].
  intros H. exfalso. apply (H a). now left.
Qed.

Lemma peaks_apart (s : Series) (w i k : nat) :
  In i (peaks s w) -> In k (peaks s w) -> (i < k)%nat -> (i + w < k)%nat.
Proof.
  intros Hi Hk Hik. apply in_peaks in Hi. apply in_peaks in Hk.
  destruct Hi as [_ Hi], Hk as [_ Hk].
  destruct (Nat.lt_ge_cases (i + w) k) as [H|H]; [exact H|exfalso].
  destruct (Hi (k - i)%nat ltac:(lia)) as [_ H1].
  destruct (Hk (k - i)%nat ltac:(lia)) as [H2 _].
  replace (i + (k - i))%nat with k in H1 by lia.
  replace (k - (k - i))%nat with i in H2 by lia.
  unfold fgtb in *. apply fltb_asym in H1. congruence.
Qed.

Lemma valleys_apart (s : Series) (w i k : nat) :
  In i (valleys s w) -> In k (valleys s w) -> (i < k)%nat -> (i + w < k)%nat.
Proof.
  intros Hi Hk Hik. apply in_valleys in Hi. apply in_valleys in Hk.
  destruct Hi as [_ Hi], Hk as [_ Hk].
  destruct (Nat.lt_ge_cases (i + w) k) as [H|H]; [exact H|exfalso].
  destruct (Hi (k - i)%nat ltac:(lia)) as [_ H1].
  destruct (Hk (k - i)%nat ltac:(lia)) as [H2 _].
  replace (i + (k - i))%nat with k in H1 by lia.
  replace (k - (k - i))%nat with i in H2 by lia.
  apply fltb_asym in H1. congruence.
Qed.

(** X1.  Two peaks returned by [find_peaks_valleys] are more than [lookback]
    rows apart, and so are two valleys: within [lookback] rows of an extremum
    there is no second one of the same kind. *)
Theorem extrema_more_than_lookback_apart
  (series : Series) (lookback : nat) (pk vl : list nat) :
  find_peaks_valleys series lookback = Ok (pk, vl) ->
  (forall i k, In i pk -> In k pk -> (i < k)%nat -> (i + lookback < k)%nat) /\
  (forall i k, In i vl -> In k vl -> (i < k)%nat -> (i + lookback < k)%nat).
Proof.
  rewrite find_peaks_valleys_ok. intros [= <- <-]. split.
  - apply peaks_apart.
  - apply valleys_apart.
Qed.

(** Witness of X1: the lows of [frame_all_extrema], peaks at 15 and 22. *)
Lemma extrema_more_than_lookback_apart_witness :
  find_peaks_valleys (col low frame_all_extrema) 5
  = Ok ([15; 22]%nat, [14; 21]%nat) /\ (15 + 5 < 22)%nat.
Proof.
  assert (H : find_peaks_valleys (col low frame_all_extrema) 5
              = Ok ([15; 22]%nat, [14; 21]%nat)) by (vm_compute; reflexivity).
  split; [exact H|].
  apply (proj1 (extrema_more_than_lookback_apart _ _ _ _ H) 15%nat 22%nat).
  - simpl. tauto.
  - simpl. tauto.
  - lia.
Defined.

Lemma forallb_window_ext (f g : nat -> bool) (w : nat) :
  (forall j, (1 <= j <= w)%nat -> f j = g j) ->
  forallb f (window w) = forallb g (window w).
Proof.
  intros H. unfold window.
  assert (Hin : forall j, In j (seq 1 w) -> f j = g j)
    by (intros j Hj; apply in_seq in Hj; apply H; lia).
  induction (seq 1 w) as [|a l IH]; simpl; [reflexivity|].
  rewrite (Hin a (or_introl eq_refl)). f_equal.
  apply IH. intros j Hj. apply Hin. now right.
Qed.

Lemma beats_app (cmp : float64 -> float64 -> bool) (s t : Series)
      (w i : nat) :
  (i + w < length s)%nat ->
  beats cmp (s ++ t) w i = beats cmp s w i.
Proof.
  intros Hi. unfold beats, get. f_equal.
  - apply forallb_window_ext. intros j Hj. rewrite !app_nth1 by lia.
    reflexivity.
  - apply forallb_window_ext. intros j Hj. rewrite !app_nth1 by lia.
    reflexivity.
Qed.

Lemma filter_ext_on (f g : nat -> bool) (l : list nat) :
  (forall i, In i l -> f i = g i) -> filter f l = filter g l.
Proof.
  induction l as [|a l IH]; intros H; simpl; [reflexivity|].
  rewrite (H a (or_introl eq_refl)).
  rewrite IH by (intros i Hi; apply H; now right). reflexivity.
Qed.

(** The rows inspected in [s ++ t] are the rows inspected in [s], then
    later rows. *)
Lemma inspected_app (s t : Series) (w : nat) :
  exists later,
    inspected (s ++ t) w = inspected s w ++ later /\
    forall k, In k later -> (length s <= k + w)%nat.
Proof.
  unfold inspected. rewrite length_app.
  destruct (Nat.ltb_spec (length s) (w * 2)) as [Hs|Hs].
  - eexists. split; [reflexivity|].
    intros k Hk.
    destruct (Nat.ltb_spec (length s + length t) (w * 2));
      [contradiction|].
    apply in_seq in Hk. lia.
  - destruct (Nat.ltb_spec (length s + length t) (w * 2)); [lia|].
    exists (seq (length s - w) (length t)). split.
    + replace (length s + length t - w - w)%nat
        with ((length s - w - w) + length t)%nat by lia.
      rewrite seq_app. f_equal. f_equal. lia.
    + intros k Hk. apply in_seq in Hk. lia.
Qed.

Lemma filtered_app (cmp : float64 -> float64 -> bool) (s t : Series)
      (w : nat) :
  exists later,
    filter (beats cmp (s ++ t) w) (inspected (s ++ t) w)
    = filter (beats cmp s w) (inspected s w) ++ later /\
    forall k, In k later -> (length s <= k + w)%nat.
Proof.
  destruct (inspected_app s t w) as (later & E & Hl).
  exists (filter (beats cmp (s ++ t) w) later). split.
  - rewrite E, filter_app. f_equal.
    apply filter_ext_on. intros i Hi. apply in_inspected in Hi.
    apply beats_app. lia.
  - intros k Hk. apply filter_In in Hk. apply Hl. tauto.
Qed.

(** X2.  Rows added at the end of a series leave the extrema already found
    as they are: the peaks (valleys) of [series ++ more] are the peaks
    (valleys) of [series] followed by indices whose window reaches the added
    rows. *)
Theorem extrema_stable_under_new_rows
  (series more : Series) (lookback : nat) (pk vl pk' vl' : list nat) :
  find_peaks_valleys series lookback = Ok (pk, vl) ->
  find_peaks_valleys (series ++ more) lookback = Ok (pk', vl') ->
  exists later_pk later_vl,
    pk' = pk ++ later_pk /\ vl' = vl ++ later_vl /\
    forall k, In k later_pk \/ In k later_vl ->
      (length series <= k + lookback)%nat.
Proof.
  rewrite !find_peaks_valleys_ok. intros [= <- <-] [= <- <-].
  destruct (filtered_app fgtb series more lookback) as (lp & Ep & Hp).
  destruct (filtered_app fltb series more lookback) as (lv & Ev & Hv).
  exists lp, lv. split; [exact Ep|]. split; [exact Ev|].
  intros k [Hk|Hk]; auto.
Qed.

(** Witness of X2: the lows of [frame_distance_14] and the same lows with the
    row that [frame_distance_15] adds. *)
Lemma extrema_stable_under_new_rows_witness :
  exists later_pk later_vl,
    [14; 20]%nat = [14; 20]%nat ++ later_pk /\
    @nil nat = [] ++ later_vl /\
    forall k, In k later_pk \/ In k later_vl ->
      (length (col low frame_distance_14) <= k + 5)%nat.
Proof.
  apply (extrema_stable_under_new_rows
           (col low frame_distance_14) [quote 500] 5).
  - vm_compute. reflexivity.
  - vm_compute. reflexivity.
Defined.

Lemma monotone_no_peaks (s : Series) (w : nat) :
  (1 <= w)%nat -> monotone s -> peaks s w = [].
Proof.
  intros Hw Hm. apply no_member_nil. intros i Hi.
  apply in_peaks in Hi. destruct Hi as [[Hlo Hhi] Hp].
  destruct (Hp 1%nat ltac:(lia)) as [Hl Hr]. unfold fgtb in *.
  destruct Hm as [Hm|Hm].
  - specialize (Hm i ltac:(lia)).
    replace (i + 1)%nat with (S i) in Hr by lia. congruence.
  - specialize (Hm (i - 1)%nat ltac:(lia)).
    replace (S (i - 1)) with i in Hm by lia. congruence.
Qed.

Lemma monotone_no_valleys (s : Series) (w : nat) :
  (1 <= w)%nat -> monotone s -> valleys s w = [].
Proof.
  intros Hw Hm. apply no_member_nil. intros i Hi.
  apply in_valleys in Hi. destruct Hi as [[Hlo Hhi] Hp].
  destruct (Hp 1%nat ltac:(lia)) as [Hl Hr].
  destruct Hm as [Hm|Hm].
  - specialize (Hm (i - 1)%nat ltac:(lia)).
    replace (S (i - 1)) with i in Hm by lia. congruence.
  - specialize (Hm i ltac:(lia)).
    replace (i + 1)%nat with (S i) in Hr by lia. congruence.
Qed.

(** X3.  A series that never falls, or never rises, from one row to the next
    has no peak and no valley (lookback at least 1); flat stretches
    included. *)
Theorem monotone_series_has_no_extrema (series : Series) (lookback : nat) :
  (1 <= lookback)%nat -> monotone series ->
  find_peaks_valleys series lookback = Ok ([], []).
Proof.
  intros Hw Hm. rewrite find_peaks_valleys_ok.
  now rewrite monotone_no_peaks, monotone_no_valleys.
Qed.

Lemma quote_lt (a b : Z) : (quote a <? quote b)%f64 = (a <? b)%Z.
Proof.
  unfold quote, fltb, Qltb, Qle_bool. simpl.
  rewrite !Z.mul_1_r. rewrite Z.ltb_antisym. reflexivity.
Qed.

Lemma uptrend_lows_never_fall : never_falls (col low frame_uptrend).
Proof.
  intros i Hi. unfold frame_uptrend, col in *. rewrite map_map in *.
  rewrite length_map, length_seq in Hi. unfold get.
  rewrite !(nth_indep _ NaN (quote (495 + Z.of_nat 0)))
    by (rewrite length_map, length_seq; lia).
  rewrite !(map_nth (fun i => quote (495 + Z.of_nat i))).
  rewrite !seq_nth by lia. simpl low. rewrite quote_lt.
  apply Z.ltb_ge. lia.
Qed.

(** Witness of X3: the lows of [frame_uptrend]. *)
Lemma monotone_series_has_no_extrema_witness :
  find_peaks_valleys (col low frame_uptrend) 5 = Ok ([], []).
Proof.
  apply monotone_series_has_no_extrema.
  - lia.
  - left. apply uptrend_lows_never_fall.
Defined.

Lemma fltb_fopp (x y : float64) : (fopp x <? fopp y)%f64 = (y <? x)%f64.
Proof.
  destruct x as [| | |p], y as [| | |q]; simpl; try reflexivity.
  unfold Qltb. f_equal.
  destruct (Qle_bool (- q) (- p)) eqn:E1, (Qle_bool p q) eqn:E2;
    try reflexivity.
  - apply Qle_bool_iff in E1.
    assert (H : p <= q) by lra. apply Qle_bool_iff in H. congruence.
  - apply Qle_bool_iff in E2.
    assert (H : - q <= - p) by lra. apply Qle_bool_iff in H. congruence.
Qed.

Lemma beats_fopp (s : Series) (w i : nat) :
  (w <= i)%nat -> (i + w < length s)%nat ->
  beats fgtb (map fopp s) w i = beats fltb s w i /\
  beats fltb (map fopp s) w i = beats fgtb s w i.
Proof.
  intros Hlo Hhi. unfold beats, fgtb.
  split; f_equal; apply forallb_window_ext; intros j Hj;
    rewrite !get_map by lia; apply fltb_fopp.
Qed.

(** X4.  Turning a series upside down exchanges the two outputs of
    [find_peaks_valleys]: the peaks of the negated series are the valleys of
    the series and conversely. *)
Theorem negation_swaps_peaks_and_valleys
  (series : Series) (lookback : nat) (pk vl : list nat) :
  find_peaks_valleys series lookback = Ok (pk, vl) ->
  find_peaks_valleys (map fopp series) lookback = Ok (vl, pk).
Proof.
  rewrite !find_peaks_valleys_ok. intros [= <- <-].
  unfold peaks, valleys, is_peak, is_valley, inspected.
  rewrite length_map.
  destruct (length series <? lookback * 2)%nat eqn:E; [reflexivity|].
  apply Nat.ltb_ge in E.
  f_equal. f_equal; apply filter_ext_on; intros i Hi; apply in_seq in Hi;
    apply beats_fopp; lia.
Qed.

(** Witness of X4: the highs of [frame_all_extrema]. *)
Lemma negation_swaps_peaks_and_valleys_witness :
  find_peaks_valleys (map fopp (col high frame_all_extrema)) 5
  = Ok ([18; 24]%nat, [19; 25]%nat).
Proof.
  apply negation_swaps_peaks_and_valleys. vm_compute. reflexivity.
Defined.

(** * Further properties of the indicators and of the classifier *)

Lemma ewm_update_nobs (alpha : Q) (st : ewm_state) (cur : float64) :
  (nobs (ewm_update alpha st cur) <= S (nobs st))%nat.
Proof.
  unfold ewm_update.
  destruct (is_observation (weighted st)), (is_observation cur); simpl; lia.
Qed.

Lemma ewm_state_nobs (alpha : Q) (vals : Series) (i : nat) :
  (i < length vals)%nat -> (nobs (ewm_state_at alpha vals i) <= S i)%nat.
Proof.
  induction i as [|i IH]; intros Hi.
  - destruct vals as [|v0 rest]; simpl in *; [lia|].
    destruct (is_observation v0); lia.
  - rewrite ewm_state_at_succ by exact Hi.
    pose proof (ewm_update_nobs alpha (ewm_state_at alpha vals i)
                  (get vals (S i))).
    specialize (IH ltac:(lia)). lia.
Qed.

(** A mean asked with [min_periods] rows is NaN on the rows before. *)
Lemma ewm_mean_hidden (alpha : Q) (min_periods : nat) (vals : Series)
      (i : nat) :
  (S i < min_periods)%nat -> get (ewm_mean alpha min_periods vals) i = NaN.
Proof.
  intros Hi.
  destruct (Nat.lt_ge_cases i (length vals)) as [Hlt|Hge].
  - rewrite ewm_mean_get by exact Hlt. unfold ewm_out.
    pose proof (ewm_state_nobs alpha vals i Hlt).
    destruct (Nat.leb_spec (Nat.max min_periods 1)
                (nobs (ewm_state_at alpha vals i))); [lia|reflexivity].
  - unfold get. apply nth_overflow. now rewrite ewm_mean_length.
Qed.

(** The RSI of the rows before the thirteenth is hidden. *)
Lemma rsi_hidden_rows (closes : Series) (i : nat) :
  (i < RSI_LENGTH - 1)%nat -> get (rsi closes) i = NaN.
Proof.
  intros Hi. change (RSI_LENGTH - 1)%nat with 13%nat in Hi.
  destruct (Nat.lt_ge_cases i (length closes)) as [Hlt|Hge].
  - rewrite rsi_get by exact Hlt. unfold avg_gain.
    rewrite ewm_mean_hidden by (unfold RSI_LENGTH; lia). reflexivity.
  - unfold get. apply nth_overflow. now rewrite rsi_length.
Qed.

(** X5.  Whatever the closes (NaN and infinite values included), the RSI of
    the first RSI_LENGTH - 1 = 13 rows is NaN. *)
Theorem rsi_warm_up (closes : Series) (i : nat) :
  (i < RSI_LENGTH - 1)%nat -> get (rsi closes) i = NaN.
Proof. apply rsi_hidden_rows. Qed.

(** Witness of X5: row 12 of a series that starts with a NaN. *)
Lemma rsi_warm_up_witness : get (rsi (NaN :: rising)) 12 = NaN.
Proof. apply rsi_warm_up. unfold RSI_LENGTH. lia. Defined.

Lemma fltb_defined (x y : float64) :
  (x <? y)%f64 = true -> x <> NaN /\ y <> NaN.
Proof. destruct x, y; simpl; intros H; split; congruence. Qed.

(** The rows compared by a check that fires. *)
Lemma fired_rows (df : DataFrame) (prices : Series) (idx : list nat) :
  StronglySorted lt idx ->
  (forall i, In i idx -> (LOOKBACK <= i)%nat /\ (i + LOOKBACK < length df)%nat) ->
  (forall i k, In i idx -> In k idx -> (i < k)%nat -> (i + LOOKBACK < k)%nat) ->
  (2 <= length idx)%nat ->
  (distance df (last_of idx) < 15)%Z ->
  get (rsi (col close df)) (prev_of idx) <> NaN ->
  (13 <= prev_of idx)%nat /\ (prev_of idx + 5 < last_of idx)%nat /\
  (6 <= distance df (last_of idx) <= 14)%Z /\ (25 <= length df)%nat.
Proof.
  intros Hs Hin Hap H2 Hd Hr. unfold LOOKBACK in *.
  pose proof (last_of_in idx ltac:(lia)) as Hl.
  pose proof (prev_of_in idx H2) as Hp.
  assert (Hlt : (prev_of idx < last_of idx)%nat)
    by (apply sorted_nth_lt; [exact Hs|lia|lia]).
  pose proof (Hap _ _ Hp Hl Hlt) as Hgap.
  destruct (Hin _ Hl) as [Hl1 Hl2].
  assert (H13 : (13 <= prev_of idx)%nat).
  { destruct (Nat.lt_ge_cases (prev_of idx) 13) as [H|H]; [|exact H].
    exfalso. apply Hr. apply rsi_hidden_rows. unfold RSI_LENGTH. lia. }
  unfold distance in *. repeat split; lia.
Qed.

(** The rows compared when the report is not Neutral. *)
Lemma rows_of_a_report (df : DataFrame) (vs ps : list nat)
        (r : Report) :
  price_valleys_idx df = Ok vs ->
  price_peaks_idx df = Ok ps ->
  analyze_market df = Ok r ->
  signal (verdict r) <> Neutral ->
  let idx := match signal (verdict r) with BearishDiv => ps | _ => vs end in
  (13 <= prev_of idx)%nat /\ (prev_of idx + 5 < last_of idx)%nat /\
  (6 <= distance df (last_of idx) <= 14)%Z /\ (25 <= length df)%nat.
Proof.
  intros Hvs Hps Hr Hsig.
  destruct (index_lists df vs ps Hvs Hps) as [Evs Eps].
  destruct (Nat.lt_ge_cases (length df) 2) as [Hshort|Hn].
  { rewrite analyze_market_short in Hr by exact Hshort. discriminate. }
  rewrite analyze_market_ok in Hr by exact Hn. injection Hr as <-.
  cbn [verdict] in *. rewrite <- Evs, <- Eps in *.
  rewrite classify_signal in *.
  destruct (bearish_fires _ _ _ ps) eqn:Eb.
  - cbv zeta. apply bearish_fires_iff in Eb.
    destruct Eb as (H2 & Hd & _ & Hrsi).
    apply (fired_rows df (col high df) ps); auto.
    + rewrite Eps. apply valleys_sorted.
    + intros i Hi. rewrite Eps in Hi. apply in_valleys in Hi.
      rewrite col_length in Hi. tauto.
    + rewrite Eps. apply valleys_apart.
    + apply fltb_defined in Hrsi. tauto.
  - destruct (bullish_fires _ _ _ vs) eqn:Eu; [|contradiction].
    cbv zeta. apply bullish_fires_iff in Eu.
    destruct Eu as (H2 & Hd & _ & Hrsi).
    apply (fired_rows df (col low df) vs); auto.
    + rewrite Evs. apply peaks_sorted.
    + intros i Hi. rewrite Evs in Hi. apply in_peaks in Hi.
      rewrite col_length in Hi. tauto.
    + rewrite Evs. apply peaks_apart.
    + unfold fgtb in Hrsi. apply fltb_defined in Hrsi. tauto.
Qed.

(** X6.  When [analyze_market] reports a divergence, the two rows it compared
    lie past the warm-up of the RSI and more than LOOKBACK rows apart, and
    the most recent one is between 6 and 14 rows from the end of the frame:
    prev >= 13, prev + 5 < last, 6 <= N - last <= 14, hence N >= 25. *)
Theorem reported_divergence_rows (df : DataFrame) (vs ps : list nat)
        (r : Report) :
  price_valleys_idx df = Ok vs ->
  price_peaks_idx df = Ok ps ->
  analyze_market df = Ok r ->
  signal (verdict r) <> Neutral ->
  let idx := match signal (verdict r) with BearishDiv => ps | _ => vs end in
  (13 <= prev_of idx)%nat /\ (prev_of idx + 5 < last_of idx)%nat /\
  (6 <= distance df (last_of idx) <= 14)%Z /\ (25 <= length df)%nat.
Proof. apply rows_of_a_report. Qed.

(** Witness of X6: [frame_low_bumps], rows 15 and 22 of 31. *)
Lemma reported_divergence_rows_witness :
  (13 <= 15)%nat /\ (15 + 5 < 22)%nat /\
  (6 <= distance frame_low_bumps 22 <= 14)%Z /\
  (25 <= length frame_low_bumps)%nat.
Proof.
  assert (Hn : (2 <= length frame_low_bumps)%nat) by (vm_compute; lia).
  pose proof (analyze_market_ok frame_low_bumps Hn) as Hr.
  assert (Hs : signal (classify frame_low_bumps
                         (peaks (col low frame_low_bumps) LOOKBACK)
                         (valleys (col high frame_low_bumps) LOOKBACK))
               = BullishDiv)
    by (rewrite classify_signal; vm_compute; reflexivity).
  pose proof (reported_divergence_rows frame_low_bumps [15; 22]%nat []%list
                _ ltac:(vm_compute; reflexivity)
                ltac:(vm_compute; reflexivity) Hr) as H.
  cbn [verdict] in H. rewrite Hs in H.
  apply H. discriminate.
Defined.

(** X7.  On a frame of at least 2 and fewer than 25 rows the report is
    Neutral, with no details and no confirmation. *)
Theorem short_frames_are_neutral (df : DataFrame) :
  (2 <= length df < 25)%nat ->
  exists r, analyze_market df = Ok r /\ verdict r = neutral.
Proof.
  intros Hn.
  pose proof (analyze_market_ok df ltac:(lia)) as Hr.
  eexists. split; [exact Hr|]. cbn [verdict].
  destruct (signal (classify df (peaks (col low df) LOOKBACK)
                      (valleys (col high df) LOOKBACK))) eqn:Es.
  - rewrite classify_signal in Es.
    destruct (bearish_fires _ _ _ _) eqn:Eb; [discriminate|].
    destruct (bullish_fires _ _ _ _) eqn:Eu; [discriminate|].
    now apply classify_neutral.
  - exfalso.
    pose proof (rows_of_a_report df _ _ _
                  (price_valleys_idx_ok df) (price_peaks_idx_ok df) Hr) as H.
    cbn [verdict] in H. rewrite Es in H.
    specialize (H ltac:(discriminate)). cbv zeta in H. lia.
  - exfalso.
    pose proof (rows_of_a_report df _ _ _
                  (price_valleys_idx_ok df) (price_peaks_idx_ok df) Hr) as H.
    cbn [verdict] in H. rewrite Es in H.
    specialize (H ltac:(discriminate)). cbv zeta in H. lia.
Qed.

(** Witness of X7: the first 24 rows of [frame_all_extrema]. *)
Lemma short_frames_are_neutral_witness :
  exists r, analyze_market (firstn 24 frame_all_extrema) = Ok r /\
            verdict r = neutral.
Proof.
  apply short_frames_are_neutral. vm_compute. lia.
Defined.

(** X8.  The three parts of a verdict agree: the signal is Neutral exactly
    when there are no details and exactly when there is no confirmation; the
    confirmation "JA (Steigend)" only comes with BullishDiv and
    "JA (Fallend)" only with BearishDiv; and the price of the report is the
    close of the last row. *)
Theorem verdict_parts_agree (df : DataFrame) (r : Report) :
  analyze_market df = Ok r ->
  (signal (verdict r) = Neutral <-> details (verdict r) = None) /\
  (signal (verdict r) = Neutral <-> macd_conf (verdict r) = NoConfirmation) /\
  (macd_conf (verdict r) = JaSteigend -> signal (verdict r) = BullishDiv) /\
  (macd_conf (verdict r) = JaFallend -> signal (verdict r) = BearishDiv) /\
  price r = get (col close df) (length df - 1).
Proof.
  intros Hr.
  destruct (Nat.lt_ge_cases (length df) 2) as [Hshort|Hn].
  { rewrite analyze_market_short in Hr by exact Hshort. discriminate. }
  rewrite analyze_market_ok in Hr by exact Hn. injection Hr as <-.
  cbn [verdict price]. unfold classify, bearish_outcome, bullish_outcome.
  destruct (bearish_fires _ _ _ _); [|destruct (bullish_fires _ _ _ _)];
    cbn [signal details macd_conf neutral];
    repeat match goal with
           | |- context [if ?c then _ else _] => destruct c
           end;
    repeat split; intros; congruence.
Qed.

(** Witness of X8: [frame_low_bumps]. *)
Lemma verdict_parts_agree_witness :
  exists r, analyze_market frame_low_bumps = Ok r /\
    (signal (verdict r) = Neutral <-> details (verdict r) = None) /\
    price r = get (col close frame_low_bumps) (length frame_low_bumps - 1).
Proof.
  eexists. split.
  - apply analyze_market_ok. vm_compute. lia.
  - pose proof (verdict_parts_agree frame_low_bumps _
                  (analyze_market_ok frame_low_bumps
                     ltac:(vm_compute; lia))) as H.
    split; [apply H|apply H].
Defined.

(** X9.  The details of a reported divergence show it: with BullishDiv the
    last price is strictly below the previous one and the last RSI strictly
    above the previous one; with BearishDiv the last price is strictly above
    and the last RSI strictly below. *)
Theorem details_show_the_divergence (df : DataFrame) (r : Report) (d : Details) :
  analyze_market df = Ok r ->
  details (verdict r) = Some d ->
  (signal (verdict r) = BullishDiv /\
   (p_last d <? p_prev d)%f64 = true /\ (r_last d >? r_prev d)%f64 = true) \/
  (signal (verdict r) = BearishDiv /\
   (p_last d >? p_prev d)%f64 = true /\ (r_last d <? r_prev d)%f64 = true).
Proof.
  intros Hr Hd.
  destruct (Nat.lt_ge_cases (length df) 2) as [Hshort|Hn].
  { rewrite analyze_market_short in Hr by exact Hshort. discriminate. }
  rewrite analyze_market_ok in Hr by exact Hn. injection Hr as <-.
  cbn [verdict] in *. revert Hd.
  unfold classify, bearish_outcome, bullish_outcome.
  destruct (bearish_fires _ _ _ _) eqn:Eb.
  - cbn [details signal]. intros [= <-]. right.
    apply bearish_fires_iff in Eb. cbn [details_at p_last p_prev r_last r_prev].
    tauto.
  - destruct (bullish_fires _ _ _ _) eqn:Eu.
    + cbn [details signal]. intros [= <-]. left.
      apply bullish_fires_iff in Eu.
      cbn [details_at p_last p_prev r_last r_prev]. tauto.
    + cbn [details neutral]. discriminate.
Qed.

(** Witness of X9: [frame_low_bumps], lows 560 then 550. *)
Lemma details_show_the_divergence_witness :
  exists r d, analyze_market frame_low_bumps = Ok r /\
    details (verdict r) = Some d /\ (p_last d <? p_prev d)%f64 = true.
Proof.
  assert (Hn : (2 <= length frame_low_bumps)%nat) by (vm_compute; lia).
  pose proof (analyze_market_ok frame_low_bumps Hn) as Hr.
  assert (Hd : details (classify frame_low_bumps
                          (peaks (col low frame_low_bumps) LOOKBACK)
                          (valleys (col high frame_low_bumps) LOOKBACK))
               = Some (details_at (col low frame_low_bumps)
                         (rsi (col close frame_low_bumps)) [15; 22]%nat)).
  { rewrite classify_bullish_only by (vm_compute; reflexivity).
    cbn [details]. f_equal. }
  eexists. eexists. split; [exact Hr|]. split; [exact Hd|].
  destruct (details_show_the_divergence frame_low_bumps _ _ Hr Hd)
    as [(_ & H & _)|(Hs & _)].
  - exact H.
  - exfalso. cbn [verdict] in Hs. rewrite classify_signal in Hs.
    vm_compute in Hs. discriminate.
Defined.

(** X10.  On the index lists the two checks read, the bearish check has the
    last word: when it fires the report is BearishDiv with the highs and RSI
    values of its two rows as details and "JA (Fallend)" exactly when the
    last histogram value is below the one before, whether or not the bullish
    check fired before it. *)
Theorem bearish_check_has_last_word (df : DataFrame) (vs ps : list nat) :
  price_valleys_idx df = Ok vs ->
  price_peaks_idx df = Ok ps ->
  bearish_fires (length df) (col high df) (rsi (col close df)) ps = true ->
  exists r, analyze_market df = Ok r /\
    signal (verdict r) = BearishDiv /\
    details (verdict r)
      = Some (details_at (col high df) (rsi (col close df)) ps) /\
    macd_conf (verdict r)
      = if (get (macd_hist (col close df)) (length df - 1)
              <? get (macd_hist (col close df)) (length df - 2))%f64
        then JaFallend else Nein.
Proof.
  intros Hvs Hps Hb.
  destruct (index_lists df vs ps Hvs Hps) as [Evs Eps].
  assert (Hn : (2 <= length df)%nat).
  { apply bearish_fires_iff in Hb. destruct Hb as (H2 & _).
    apply (valleys_need_rows df high). rewrite <- Eps. lia. }
  eexists. split.
  - rewrite analyze_market_ok by exact Hn. rewrite <- Evs, <- Eps. reflexivity.
  - cbn [verdict]. rewrite classify_bearish_last by exact Hb.
    repeat split.
Qed.

(** Witness of X10: [frame_all_extrema], where both checks fire. *)
Lemma bearish_check_has_last_word_witness :
  bullish_fires (length frame_all_extrema) (col low frame_all_extrema)
    (rsi (col close frame_all_extrema)) [15; 22]%nat = true /\
  exists r, analyze_market frame_all_extrema = Ok r /\
    signal (verdict r) = BearishDiv.
Proof.
  split; [vm_compute; reflexivity|].
  destruct (bearish_check_has_last_word frame_all_extrema
              [15; 22]%nat [18; 24]%nat)
    as (r & Hr & Hs & _).
  - vm_compute. reflexivity.
  - vm_compute. reflexivity.
  - vm_compute. reflexivity.
  - exists r. split; assumption.
Defined.

(** X11.  The index list read by the bullish check holds the rows whose low
    is strictly above the lows of the five rows on each side, and the list
    read by the bearish check the rows whose high is strictly below the highs
    of the five rows on each side. *)
Theorem index_lists_of_the_checks (df : DataFrame) (vs ps : list nat) :
  price_valleys_idx df = Ok vs ->
  price_peaks_idx df = Ok ps ->
  forall i,
    (In i vs <->
     ((5 <= i)%nat /\ (i + 5 < length df)%nat) /\
     strictly_above (col low df) 5 i) /\
    (In i ps <->
     ((5 <= i)%nat /\ (i + 5 < length df)%nat) /\
     strictly_below (col high df) 5 i).
Proof.
  intros Hvs Hps i.
  destruct (index_lists df vs ps Hvs Hps) as [-> ->].
  rewrite in_peaks, in_valleys, !col_length. unfold LOOKBACK. tauto.
Qed.

(** Witness of X11: row 15 of [frame_low_bumps]. *)
Lemma index_lists_of_the_checks_witness :
  strictly_above (col low frame_low_bumps) 5 15.
Proof.
  apply (index_lists_of_the_checks frame_low_bumps [15; 22]%nat []%list
           ltac:(vm_compute; reflexivity) ltac:(vm_compute; reflexivity) 15%nat).
  simpl. tauto.
Defined.

(** X12.  When the lows never fall or never rise from row to row, and the
    same holds for the highs, the report is Neutral whatever the closes. *)
Theorem monotone_frame_is_neutral (df : DataFrame) :
  (2 <= length df)%nat ->
  monotone (col low df) -> monotone (col high df) ->
  exists r, analyze_market df = Ok r /\ verdict r = neutral.
Proof.
  intros Hn Hl Hh. eexists. split.
  - apply analyze_market_ok. exact Hn.
  - cbn [verdict].
    rewrite monotone_no_peaks, monotone_no_valleys
      by (assumption || (unfold LOOKBACK; lia)).
    reflexivity.
Qed.

Lemma uptrend_highs_never_fall : never_falls (col high frame_uptrend).
Proof.
  intros i Hi. unfold frame_uptrend, col in *. rewrite map_map in *.
  rewrite length_map, length_seq in Hi. unfold get.
  rewrite !(nth_indep _ NaN (quote (505 + Z.of_nat 0)))
    by (rewrite length_map, length_seq; lia).
  rewrite !(map_nth (fun i => quote (505 + Z.of_nat i))).
  rewrite !seq_nth by lia. simpl high. rewrite quote_lt.
  apply Z.ltb_ge. lia.
Qed.

(** Witness of X12: [frame_uptrend]. *)
Lemma monotone_frame_is_neutral_witness :
  exists r, analyze_market frame_uptrend = Ok r /\ verdict r = neutral.
Proof.
  apply monotone_frame_is_neutral.
  - vm_compute. lia.
  - left. apply uptrend_lows_never_fall.
  - left. apply uptrend_highs_never_fall.
Defined.

(** X13.  The two indicator series have one value per row of the frame. *)
Theorem indicators_aligned (df : DataFrame) :
  length (ind_rsi (calculate_indicators df)) = length df /\
  length (ind_macd_hist (calculate_indicators df)) = length df.
Proof.
  unfold calculate_indicators. cbn [ind_rsi ind_macd_hist].
  now rewrite rsi_length, macd_hist_length, col_length.
Qed.

(** ** Rows added at the end *)

Lemma diff_from_app (prev : float64) (a b : Series) :
  exists tail, diff_from prev (a ++ b) = diff_from prev a ++ tail.
Proof.
  revert prev. induction a as [|x a IH]; intros prev; simpl.
  - eexists. reflexivity.
  - destruct (IH x) as (tail & ->). exists tail. reflexivity.
Qed.

Lemma diff_app (a b : Series) :
  exists tail, diff (a ++ b) = diff a ++ tail.
Proof.
  destruct a as [|x a]; simpl.
  - eexists. reflexivity.
  - destruct (diff_from_app x a b) as (tail & ->). exists tail. reflexivity.
Qed.

Lemma ewm_loop_app (alpha : Q) (minp : nat) (st : ewm_state) (a b : Series) :
  exists tail,
    ewm_loop alpha minp st (a ++ b) = ewm_loop alpha minp st a ++ tail.
Proof.
  revert st. induction a as [|x a IH]; intros st; simpl.
  - eexists. reflexivity.
  - destruct (IH (ewm_update alpha st x)) as (tail & ->).
    exists tail. reflexivity.
Qed.

Lemma ewm_mean_app (alpha : Q) (min_periods : nat) (a b : Series) :
  exists tail,
    ewm_mean alpha min_periods (a ++ b) = ewm_mean alpha min_periods a ++ tail.
Proof.
  destruct a as [|x a]; simpl.
  - eexists. reflexivity.
  - destruct (ewm_loop_app alpha (Nat.max min_periods 1) (ewm_init x) a b)
      as (tail & ->).
    exists tail. reflexivity.
Qed.

Lemma map2_app (f : float64 -> float64 -> float64) (a b c d : Series) :
  length a = length b ->
  map2 f (a ++ c) (b ++ d) = map2 f a b ++ map2 f c d.
Proof.
  revert b. induction a as [|x a IH]; intros [|y b] H; simpl in *;
    try discriminate.
  - reflexivity.
  - f_equal. apply IH. lia.
Qed.

Lemma gain_app (a b : Series) :
  exists tail, gain (a ++ b) = gain a ++ tail.
Proof.
  unfold gain, where_, delta. destruct (diff_app a b) as (tail & ->).
  rewrite map_app. eexists. reflexivity.
Qed.

Lemma loss_app (a b : Series) :
  exists tail, loss (a ++ b) = loss a ++ tail.
Proof.
  unfold loss, where_, delta. destruct (diff_app a b) as (tail & ->).
  rewrite !map_app. eexists. reflexivity.
Qed.

Lemma rsi_app (a b : Series) :
  exists tail, rsi (a ++ b) = rsi a ++ tail.
Proof.
  unfold rsi, rs, avg_gain, avg_loss.
  destruct (gain_app a b) as (tg & ->). destruct (loss_app a b) as (tl & ->).
  destruct (ewm_mean_app rsi_alpha RSI_LENGTH (gain a) tg) as (tg' & ->).
  destruct (ewm_mean_app rsi_alpha RSI_LENGTH (loss a) tl) as (tl' & ->).
  rewrite map2_app
    by (rewrite !ewm_mean_length, gain_length, loss_length; reflexivity).
  rewrite map_app. eexists. reflexivity.
Qed.

Lemma macd_line_app (a b : Series) :
  exists tail, macd_line (a ++ b) = macd_line a ++ tail.
Proof.
  unfold macd_line, ema.
  destruct (ewm_mean_app (alpha_of_span MACD_FAST) 0 a b) as (t1 & ->).
  destruct (ewm_mean_app (alpha_of_span MACD_SLOW) 0 a b) as (t2 & ->).
  rewrite map2_app by (rewrite !ewm_mean_length; reflexivity).
  eexists. reflexivity.
Qed.

Lemma macd_hist_app (a b : Series) :
  exists tail, macd_hist (a ++ b) = macd_hist a ++ tail.
Proof.
  unfold macd_hist, signal_line, ema.
  destruct (macd_line_app a b) as (t1 & ->).
  destruct (ewm_mean_app (alpha_of_span MACD_SIGNAL) 0 (macd_line a) t1)
    as (t2 & ->).
  rewrite map2_app by (rewrite ewm_mean_length; reflexivity).
  eexists. reflexivity.
Qed.

Lemma firstn_prefix (a tail : Series) (n : nat) :
  n = length a -> firstn n (a ++ tail) = a.
Proof.
  intros ->. rewrite firstn_app, Nat.sub_diag, firstn_all. simpl.
  apply app_nil_r.
Qed.

(** X14.  The indicators of a row depend on that row and the rows before it
    only: after new rows are added at the end of a frame, the RSI and the
    histogram of the rows already there are what they were. *)
Theorem indicators_ignore_later_rows (df more : DataFrame) :
  firstn (length df) (ind_rsi (calculate_indicators (df ++ more)))
  = ind_rsi (calculate_indicators df) /\
  firstn (length df) (ind_macd_hist (calculate_indicators (df ++ more)))
  = ind_macd_hist (calculate_indicators df).
Proof.
  unfold calculate_indicators, col. cbn [ind_rsi ind_macd_hist].
  rewrite map_app.
  destruct (rsi_app (map close df) (map close more)) as (t1 & ->).
  destruct (macd_hist_app (map close df) (map close more)) as (t2 & ->).
  split; apply firstn_prefix.
  - now rewrite rsi_length, length_map.
  - now rewrite macd_hist_length, length_map.
Qed.

(** ** Gains and losses *)

Lemma get_diff_from (prev : float64) (s : Series) (k : nat) :
  (k < length s)%nat ->
  get (diff_from prev s) k = (get s k - get (prev :: s) k)%f64.
Proof.
  unfold get. revert prev k.
  induction s as [|x s IH]; intros prev [|k] Hk; simpl in *; try lia.
  - reflexivity.
  - apply IH. lia.
Qed.

Lemma get_diff (s : Series) (k : nat) :
  (S k < length s)%nat ->
  get (diff s) (S k) = (get s (S k) - get s k)%f64.
Proof.
  destruct s as [|x s]; simpl; [lia|]. intros Hk.
  change (get (NaN :: diff_from x s) (S k)) with (get (diff_from x s) k).
  rewrite get_diff_from by lia. reflexivity.
Qed.

(** Gain and loss of a row from the two closes. *)
Lemma gain_loss_at (closes : Series) (k : nat) (a b : Q) :
  (S k < length closes)%nat ->
  get closes k = Fin b -> get closes (S k) = Fin a ->
  get (gain closes) (S k)
  = (if Qltb 0 (a + - b) then Fin (a + - b) else Fin 0) /\
  get (loss closes) (S k)
  = (if Qltb (a + - b) 0 then Fin (- (a + - b)) else Fin (- 0)).
Proof.
  intros Hk Hb Ha. unfold gain, loss, where_, delta.
  rewrite map_map, !get_map by (rewrite diff_length; lia).
  rewrite get_diff by exact Hk. rewrite Ha, Hb. simpl. unfold fgtb. simpl.
  split.
  - destruct (Qltb 0 (a + - b)); reflexivity.
  - destruct (Qltb (a + - b) 0); reflexivity.
Qed.

Lemma Qltb_ge (x y : Q) : Qltb x y = false <-> y <= x.
Proof.
  unfold Qltb. rewrite negb_false_iff. apply Qle_bool_iff.
Qed.

(** Gain and loss of a row as two non-negative parts of the move. *)
Lemma gain_loss_split (closes : Series) (i : nat) :
  Forall is_finite closes -> (1 <= i < length closes)%nat ->
  exists g l,
    get (gain closes) i = Fin g /\ get (loss closes) i = Fin l /\
    0 <= g /\ 0 <= l /\ g * l == 0 /\
    g - l == values_of closes i - values_of closes (i - 1).
Proof.
  intros Hc Hi. destruct i as [|k]; [lia|].
  replace (S k - 1)%nat with k by lia.
  pose proof (get_finite closes k Hc ltac:(lia)) as Hb.
  pose proof (get_finite closes (S k) Hc ltac:(lia)) as Ha.
  unfold values_of.
  destruct (get closes k) as [| | |b] eqn:Eb; simpl in Hb; try contradiction.
  destruct (get closes (S k)) as [| | |a] eqn:Ea; simpl in Ha;
    try contradiction.
  destruct (gain_loss_at closes k a b ltac:(lia) Eb Ea) as [-> ->].
  cbn [qval].
  destruct (Qltb 0 (a + - b)) eqn:E1, (Qltb (a + - b) 0) eqn:E2;
    rewrite ?Qltb_lt, ?Qltb_ge in *;
    eexists; eexists; (split; [reflexivity|]); (split; [reflexivity|]);
    repeat split; try lra; try ring.
Qed.

(** X15.  On every row after the first of a finite close series, gain and
    loss are two non-negative numbers, one of them zero, whose difference is
    the move of the close: gain - loss = close[i] - close[i-1]. *)
Theorem gain_and_loss_split_the_move (closes : Series) (i : nat) :
  Forall is_finite closes -> (1 <= i < length closes)%nat ->
  exists g l,
    get (gain closes) i = Fin g /\ get (loss closes) i = Fin l /\
    0 <= g /\ 0 <= l /\ g * l == 0 /\
    g - l == values_of closes i - values_of closes (i - 1).
Proof. apply gain_loss_split. Qed.

(** Witness of X15: row 3 of [zigzag], where the close goes from 12 to 11. *)
Lemma gain_and_loss_split_the_move_witness :
  exists g l,
    get (gain zigzag) 3 = Fin g /\ get (loss zigzag) 3 = Fin l /\
    0 <= g /\ 0 <= l /\ g * l == 0 /\
    g - l == values_of zigzag 3 - values_of zigzag 2.
Proof.
  apply (gain_and_loss_split_the_move zigzag 3).
  - repeat constructor.
  - simpl. lia.
Defined.

(** ** The RSI of one-way and of flat closes *)

Lemma smoothed_zero (alpha : Q) (x : nat -> Q) (i : nat) :
  (forall k, (k <= i)%nat -> x k == 0) -> smoothed alpha x i == 0.
Proof.
  induction i as [|i IH]; intros H; simpl.
  - apply H. lia.
  - rewrite (H (S i)) by lia. rewrite IH by (intros k Hk; apply H; lia).
    ring.
Qed.

Lemma smoothed_nonneg_upto (alpha : Q) (x : nat -> Q) (i : nat) :
  0 <= alpha <= 1 -> (forall k, (k <= i)%nat -> 0 <= x k) ->
  0 <= smoothed alpha x i.
Proof.
  intros Ha. induction i as [|i IH]; intros H; simpl.
  - apply H. lia.
  - specialize (IH ltac:(intros k Hk; apply H; lia)).
    specialize (H (S i) ltac:(lia)). nra.
Qed.

Lemma smoothed_pos (alpha : Q) (x : nat -> Q) (i k : nat) :
  0 < alpha < 1 -> (forall j, (j <= i)%nat -> 0 <= x j) ->
  (k <= i)%nat -> 0 < x k -> 0 < smoothed alpha x i.
Proof.
  intros Ha. induction i as [|i IH]; intros H Hk Hx.
  - replace k with 0%nat in Hx by lia. exact Hx.
  - simpl.
    pose proof (smoothed_nonneg_upto alpha x i ltac:(lra)
                  ltac:(intros j Hj; apply H; lia)) as Hs.
    pose proof (H (S i) ltac:(lia)) as Hlast.
    destruct (Nat.eq_dec k (S i)) as [->|Hne].
    + nra.
    + specialize (IH ltac:(intros j Hj; apply H; lia) ltac:(lia) Hx). nra.
Qed.

Lemma smoothed_between (alpha lo hi : Q) (x : nat -> Q) (i : nat) :
  0 <= alpha <= 1 -> (forall k, (k <= i)%nat -> lo <= x k <= hi) ->
  lo <= smoothed alpha x i <= hi.
Proof.
  intros Ha. induction i as [|i IH]; intros H; simpl.
  - apply H. lia.
  - specialize (IH ltac:(intros k Hk; apply H; lia)).
    specialize (H (S i) ltac:(lia)). nra.
Qed.

(** Values of gain and loss from the direction of the move. *)
Lemma gain_loss_values (closes : Series) (k : nat) :
  Forall is_finite closes -> (S k < length closes)%nat ->
  let d := values_of closes (S k) - values_of closes k in
  (0 <= d -> values_of (gain closes) (S k) == d /\
             values_of (loss closes) (S k) == 0) /\
  (d <= 0 -> values_of (gain closes) (S k) == 0 /\
             values_of (loss closes) (S k) == - d).
Proof.
  intros Hc Hk d.
  destruct (gain_loss_split closes (S k) Hc ltac:(lia))
    as (g & l & Hg & Hl & Hg0 & Hl0 & Hgl & Hd).
  replace (S k - 1)%nat with k in Hd by lia. fold d in Hd.
  assert (Eg : values_of (gain closes) (S k) = g)
    by (unfold values_of; rewrite Hg; reflexivity).
  assert (El : values_of (loss closes) (S k) = l)
    by (unfold values_of; rewrite Hl; reflexivity).
  rewrite Eg, El.
  split; intros Hsign.
  - assert (l == 0) by nra. split; lra.
  - assert (g == 0) by nra. split; lra.
Qed.

Lemma values_first (closes : Series) :
  (1 <= length closes)%nat ->
  values_of (gain closes) 0 == 0 /\ values_of (loss closes) 0 == 0.
Proof.
  intros H. unfold values_of. rewrite gain_first by exact H.
  pose proof (loss_first closes H) as Hl.
  destruct (get (loss closes) 0); simpl in *; try contradiction.
  split; [reflexivity|exact Hl].
Qed.

Lemma rsi_of_no_gain (a l : float64) (q : Q) :
  feq a (Fin 0) -> l = Fin q -> 0 < q -> feq (rsi_of (a / l)%f64) (Fin 0).
Proof.
  intros Ha -> Hq. destruct a as [| | |g]; simpl in Ha; try contradiction.
  unfold fdiv. rewrite Qeq_bool_false by lra.
  unfold rsi_of, fsub, fadd, fopp.
  assert (Ht : g / q == 0) by (rewrite Ha; field; lra).
  unfold fdiv. rewrite Qeq_bool_false by (rewrite Ht; lra).
  simpl. rewrite Ht. field.
Qed.

Lemma rsi_of_flat (a l : float64) :
  feq a (Fin 0) -> feq l (Fin 0) -> rsi_of (a / l)%f64 = NaN.
Proof.
  intros Ha Hl.
  destruct a as [| | |g]; simpl in Ha; try contradiction.
  destruct l as [| | |q]; simpl in Hl; try contradiction.
  unfold fdiv. rewrite (Qeq_eq_bool _ _ Hl).
  unfold inf_times. rewrite (proj1 (Qeq_alt g 0) Ha). reflexivity.
Qed.

Section OneWay.

Variable closes : Series.
Variable i : nat.
Hypothesis closes_finite : Forall is_finite closes.
Hypothesis past_warm_up : (RSI_LENGTH - 1 <= i < length closes)%nat.

Lemma averages_past_warm_up :
  exists g l,
    get (avg_gain closes) i = Fin g /\ get (avg_loss closes) i = Fin l /\
    g == smoothed rsi_alpha (values_of (gain closes)) i /\
    l == smoothed rsi_alpha (values_of (loss closes)) i.
Proof.
  change (RSI_LENGTH - 1)%nat with 13%nat in past_warm_up.
  destruct (rsi_average_get (gain closes) i (gain_nonneg closes closes_finite)
              ltac:(rewrite gain_length; lia)) as [Hg _].
  destruct (rsi_average_get (loss closes) i (loss_nonneg closes closes_finite)
              ltac:(rewrite loss_length; lia)) as [Hl _].
  destruct (Nat.ltb_spec i 13); [lia|].
  apply feq_fin in Hg. destruct Hg as (g & Hg & Eg).
  apply feq_fin in Hl. destruct Hl as (l & Hl & El).
  exists g, l. unfold avg_gain, avg_loss. auto.
Qed.

Lemma gains_nonneg_upto (k : nat) : 0 <= values_of (gain closes) k.
Proof. apply values_of_nonneg, gain_nonneg, closes_finite. Qed.

Lemma losses_nonneg_upto (k : nat) : 0 <= values_of (loss closes) k.
Proof. apply values_of_nonneg, loss_nonneg, closes_finite. Qed.

Lemma rsi_alpha_inside : 0 < rsi_alpha < 1.
Proof. pose proof rsi_alpha_value. lra. Qed.

Lemma rsi_of_rising_closes :
  (forall k, (S k <= i)%nat -> values_of closes k <= values_of closes (S k)) ->
  (exists k, (S k <= i)%nat /\ values_of closes k < values_of closes (S k)) ->
  feq (get (rsi closes) i) (Fin 100).
Proof.
  intros Hup (k & Hk & Hrise).
  destruct averages_past_warm_up as (g & l & Hg & Hl & Eg & El).
  rewrite rsi_get by lia.
  apply (rsi_of_no_loss _ _ g).
  - rewrite Hl. simpl. rewrite El. apply smoothed_zero.
    intros j Hj. destruct j as [|j].
    + apply values_first. lia.
    + apply (gain_loss_values closes j closes_finite ltac:(lia)).
      specialize (Hup j Hj). lra.
  - exact Hg.
  - rewrite Eg. apply (smoothed_pos _ _ _ (S k)).
    + apply rsi_alpha_inside.
    + intros j _. apply gains_nonneg_upto.
    + exact Hk.
    + destruct (gain_loss_values closes k closes_finite ltac:(lia))
        as [H _].
      destruct H as [H _]; [lra|]. rewrite H. lra.
Qed.

Lemma rsi_of_falling_closes :
  (forall k, (S k <= i)%nat -> values_of closes (S k) <= values_of closes k) ->
  (exists k, (S k <= i)%nat /\ values_of closes (S k) < values_of closes k) ->
  feq (get (rsi closes) i) (Fin 0).
Proof.
  intros Hdown (k & Hk & Hfall).
  destruct averages_past_warm_up as (g & l & Hg & Hl & Eg & El).
  rewrite rsi_get by lia.
  apply (rsi_of_no_gain _ _ l).
  - rewrite Hg. simpl. rewrite Eg. apply smoothed_zero.
    intros j Hj. destruct j as [|j].
    + apply values_first. lia.
    + apply (gain_loss_values closes j closes_finite ltac:(lia)).
      specialize (Hdown j Hj). lra.
  - exact Hl.
  - rewrite El. apply (smoothed_pos _ _ _ (S k)).
    + apply rsi_alpha_inside.
    + intros j _. apply losses_nonneg_upto.
    + exact Hk.
    + destruct (gain_loss_values closes k closes_finite ltac:(lia))
        as [_ H].
      destruct H as [_ H]; [lra|]. rewrite H. lra.
Qed.

Lemma rsi_of_flat_closes :
  (forall k, (S k <= i)%nat -> values_of closes (S k) == values_of closes k) ->
  get (rsi closes) i = NaN.
Proof.
  intros Hflat.
  destruct averages_past_warm_up as (g & l & Hg & Hl & Eg & El).
  rewrite rsi_get by lia.
  apply rsi_of_flat.
  - rewrite Hg. simpl. rewrite Eg. apply smoothed_zero.
    intros j Hj. destruct j as [|j].
    + apply values_first. lia.
    + apply (gain_loss_values closes j closes_finite ltac:(lia)).
      specialize (Hflat j Hj). lra.
  - rewrite Hl. simpl. rewrite El. apply smoothed_zero.
    intros j Hj. destruct j as [|j].
    + apply values_first. lia.
    + destruct (gain_loss_values closes j closes_finite ltac:(lia))
        as [H _].
      specialize (Hflat j Hj).
      destruct H as [_ H]; [lra|exact H].
Qed.

End OneWay.

(** X16.  For finite closes and a row i past the warm-up (i >= 13): if the
    close never fell up to row i and rose at least once, the RSI of row i is
    100; if it never rose and fell at least once, the RSI is 0. *)
Theorem rsi_of_one_way_closes (closes : Series) (i : nat) :
  Forall is_finite closes -> (RSI_LENGTH - 1 <= i < length closes)%nat ->
  ((forall k, (S k <= i)%nat ->
      values_of closes k <= values_of closes (S k)) ->
   (exists k, (S k <= i)%nat /\
      values_of closes k < values_of closes (S k)) ->
   feq (get (rsi closes) i) (Fin 100)) /\
  ((forall k, (S k <= i)%nat ->
      values_of closes (S k) <= values_of closes k) ->
   (exists k, (S k <= i)%nat /\
      values_of closes (S k) < values_of closes k) ->
   feq (get (rsi closes) i) (Fin 0)).
Proof.
  intros Hc Hi. split.
  - now apply rsi_of_rising_closes.
  - now apply rsi_of_falling_closes.
Qed.

(** Witness of X16: row 14 of [rising] and of [declining]. *)
Lemma rsi_of_one_way_closes_witness :
  feq (get (rsi rising) 14) (Fin 100) /\ feq (get (rsi declining) 14) (Fin 0).
Proof.
  split.
  - apply (proj1 (rsi_of_one_way_closes rising 14 ltac:(repeat constructor)
                    ltac:(vm_compute; lia))).
    + intros k Hk.
      do 14 (destruct k as [|k]; [vm_compute; intros H; discriminate H|]).
      lia.
    + exists 0%nat. split; [lia|]. vm_compute. reflexivity.
  - apply (proj2 (rsi_of_one_way_closes declining 14 ltac:(repeat constructor)
                    ltac:(vm_compute; lia))).
    + intros k Hk.
      do 14 (destruct k as [|k]; [vm_compute; intros H; discriminate H|]).
      lia.
    + exists 0%nat. split; [lia|]. vm_compute. reflexivity.
Defined.

(** X17.  When the closes are finite and do not move, the RSI is NaN on every
    row (average gain and average loss are both 0) and the report is Neutral,
    whatever the lows and the highs. *)
Theorem flat_closes_are_neutral (df : DataFrame) :
  Forall is_finite (col close df) ->
  (forall k, (S k < length df)%nat ->
     values_of (col close df) (S k) == values_of (col close df) k) ->
  (2 <= length df)%nat ->
  (forall i, get (rsi (col close df)) i = NaN) /\
  exists r, analyze_market df = Ok r /\ verdict r = neutral.
Proof.
  intros Hc Hflat Hn.
  assert (Hnan : forall i, get (rsi (col close df)) i = NaN).
  { intros i.
    destruct (Nat.lt_ge_cases i (RSI_LENGTH - 1)) as [Hw|Hw].
    - apply rsi_hidden_rows. exact Hw.
    - destruct (Nat.lt_ge_cases i (length df)) as [Hi|Hi].
      + apply rsi_of_flat_closes.
        * exact Hc.
        * rewrite col_length. lia.
        * intros k Hk. apply Hflat. lia.
      + unfold get. apply nth_overflow.
        now rewrite rsi_length, col_length. }
  split; [exact Hnan|].
  eexists. split.
  - apply analyze_market_ok. exact Hn.
  - cbn [verdict]. apply classify_neutral.
    + apply bearish_undefined. left. apply Hnan.
    + apply bullish_undefined. left. apply Hnan.
Qed.

Lemma frame_closes (closes : list Z) (lm hm : list (Z * Z)) :
  col close (frame closes lm hm) = map quote closes.
Proof.
  unfold frame, col. rewrite map_map.
  generalize 0%nat as start.
  induction closes as [|c closes IH]; intros start; simpl; [reflexivity|].
  f_equal. apply IH.
Qed.

(** Witness of X17: [frame_flat]. *)
Lemma flat_closes_are_neutral_witness :
  get (rsi (col close frame_flat)) 20 = NaN /\
  exists r, analyze_market frame_flat = Ok r /\ verdict r = neutral.
Proof.
  assert (Hcl : col close frame_flat = repeat (quote 550) 31)
    by (unfold frame_flat; rewrite frame_closes; reflexivity).
  destruct (flat_closes_are_neutral frame_flat) as [Hnan Hr].
  - rewrite Hcl. apply Forall_forall. intros x Hx.
    apply repeat_spec in Hx. subst x. exact I.
  - intros k Hk. rewrite Hcl. unfold values_of, get.
    assert (Hrep : forall j, (j < 31)%nat ->
                     nth j (repeat (quote 550) 31) NaN = quote 550).
    { intros j Hj. apply (repeat_spec 31 (quote 550)). apply nth_In.
      now rewrite repeat_length. }
    change (length frame_flat) with 31%nat in Hk.
    rewrite !Hrep by lia. reflexivity.
  - vm_compute. lia.
  - split; [apply Hnan|exact Hr].
Defined.

(** ** The averages stay inside the range of the closes *)

Lemma in_range_value (lo hi : Q) (s : Series) (k : nat) :
  Forall (in_range lo hi) s -> (k < length s)%nat ->
  lo <= values_of s k <= hi.
Proof.
  intros Hs Hk. unfold values_of, get.
  rewrite Forall_forall in Hs. specialize (Hs _ (nth_In s NaN Hk)).
  destruct (nth k s NaN); simpl in *; try contradiction. exact Hs.
Qed.

Lemma in_range_finite (lo hi : Q) (x : float64) :
  in_range lo hi x -> is_finite x.
Proof. destruct x; simpl; tauto. Qed.

Lemma ema_between (span : Z) (x : Series) (lo hi : Q) (i : nat) :
  0 <= alpha_of_span span <= 1 ->
  Forall (in_range lo hi) x -> (i < length x)%nat ->
  in_range lo hi (get (ema span x) i).
Proof.
  intros Ha Hx Hi.
  pose proof (ewm_mean_finite (alpha_of_span span) 0 x i
                (Forall_impl _ (in_range_finite lo hi) Hx) Hi) as H.
  destruct (Nat.leb_spec (Nat.max 0 1) (S i)); [|simpl in *; lia].
  apply feq_fin in H. destruct H as (p & Hp & Ep).
  unfold ema. rewrite Hp. simpl. rewrite Ep.
  apply smoothed_between; [exact Ha|].
  intros k Hk. apply in_range_value; [exact Hx|lia].
Qed.

Lemma span_alphas :
  0 <= alpha_of_span MACD_FAST <= 1 /\ 0 <= alpha_of_span MACD_SLOW <= 1 /\
  0 <= alpha_of_span MACD_SIGNAL <= 1.
Proof.
  assert (alpha_of_span MACD_FAST == 2 # 13) by reflexivity.
  assert (alpha_of_span MACD_SLOW == 2 # 27) by reflexivity.
  assert (alpha_of_span MACD_SIGNAL == 2 # 10) by reflexivity.
  lra.
Qed.

Lemma macd_line_between (closes : Series) (lo hi : Q) (i : nat) :
  Forall (in_range lo hi) closes -> (i < length closes)%nat ->
  in_range (lo - hi) (hi - lo) (get (macd_line closes) i).
Proof.
  intros Hc Hi. unfold macd_line.
  rewrite get_map2 by (rewrite ema_length; exact Hi).
  pose proof (ema_between MACD_FAST closes lo hi i
                (proj1 span_alphas) Hc Hi) as H1.
  pose proof (ema_between MACD_SLOW closes lo hi i
                (proj1 (proj2 span_alphas)) Hc Hi) as H2.
  destruct (get (ema MACD_FAST closes) i); simpl in H1; try contradiction.
  destruct (get (ema MACD_SLOW closes) i); simpl in H2; try contradiction.
  simpl. lra.
Qed.

(** X18.  For finite closes that all lie in [[lo, hi]], on every row: the
    fast and the slow EMA lie in [[lo, hi]], the MACD line and the signal
    line lie within hi - lo of zero, and the histogram within 2 (hi - lo) of
    zero. *)
Theorem macd_within_price_range (closes : Series) (lo hi : Q) (i : nat) :
  Forall (in_range lo hi) closes -> (i < length closes)%nat ->
  in_range lo hi (get (ema MACD_FAST closes) i) /\
  in_range lo hi (get (ema MACD_SLOW closes) i) /\
  in_range (lo - hi) (hi - lo) (get (macd_line closes) i) /\
  in_range (lo - hi) (hi - lo) (get (signal_line closes) i) /\
  in_range (2 * (lo - hi)) (2 * (hi - lo)) (get (macd_hist closes) i).
Proof.
  intros Hc Hi.
  destruct span_alphas as (Hf & Hs & Hg).
  pose proof (macd_line_between closes lo hi i Hc Hi) as Hm.
  assert (Hsig : in_range (lo - hi) (hi - lo) (get (signal_line closes) i)).
  { unfold signal_line. apply ema_between; [exact Hg| |].
    - apply Forall_get. intros k Hk. rewrite macd_line_length in Hk.
      now apply macd_line_between.
    - now rewrite macd_line_length. }
  split; [now apply ema_between|]. split; [now apply ema_between|].
  split; [exact Hm|]. split; [exact Hsig|].
  unfold macd_hist.
  rewrite get_map2
    by (rewrite ?macd_line_length, ?signal_line_length; exact Hi).
  destruct (get (macd_line closes) i); simpl in Hm; try contradiction.
  destruct (get (signal_line closes) i); simpl in Hsig; try contradiction.
  simpl. lra.
Qed.

(** Witness of X18: row 5 of [ranging], closes between 10 and 20. *)
Lemma macd_within_price_range_witness :
  in_range 10 20 (get (ema MACD_FAST ranging) 5) /\
  in_range (2 * (10 - 20)) (2 * (20 - 10)) (get (macd_hist ranging) 5).
Proof.
  assert (Hr : Forall (in_range 10 20) ranging).
  { repeat (constructor;
            [split; vm_compute; intros H; discriminate H|]).
    constructor. }
  destruct (macd_within_price_range ranging 10 20 5 Hr
              ltac:(vm_compute; lia)) as (H1 & _ & _ & _ & H5).
  split; assumption.
Defined.

(** ** The scan over the timeframes *)

Lemma scan_timeframe_cases (df : DataFrame) :
  if (26 <? length df)%nat
  then exists r, analyze_market df = Ok r /\ scan_timeframe df = Ok (Some r)
  else scan_timeframe df = Ok None.
Proof.
  unfold scan_timeframe, MACD_SLOW.
  destruct (Nat.ltb_spec 26 (length df)) as [H|H].
  - destruct (Nat.eqb_spec (length df) 0); [lia|].
    destruct (Z.ltb_spec 26 (Z.of_nat (length df))); [|lia]. simpl.
    rewrite analyze_market_ok by lia. simpl. eexists. split; reflexivity.
  - destruct (Nat.eqb_spec (length df) 0); simpl; [reflexivity|].
    destruct (Z.ltb_spec 26 (Z.of_nat (length df))); [lia|reflexivity].
Qed.

Lemma scan_timeframes_rows (fetch : string -> string -> DataFrame)
      (tfs : list string) (acc : list Row) :
  exists rows,
    scan_timeframes fetch tfs acc = Ok (acc ++ rows) /\
    map row_timeframe rows
    = filter (fun tf => (26 <? length (fetch SYMBOL_PAIR tf))%nat) tfs /\
    Forall (fun row =>
              analyze_market (fetch SYMBOL_PAIR (row_timeframe row))
              = Ok (row_report row)) rows.
Proof.
  revert acc. induction tfs as [|tf rest IH]; intros acc.
  - exists []. simpl. rewrite app_nil_r. repeat split. constructor.
  - cbn [scan_timeframes filter].
    pose proof (scan_timeframe_cases (fetch SYMBOL_PAIR tf)) as Hc.
    destruct (26 <? length (fetch SYMBOL_PAIR tf))%nat.
    + destruct Hc as (r & Hr & ->). cbn [bind].
      destruct (IH (acc ++ [{| row_timeframe := tf; row_report := r |}]))
        as (rows & -> & Hm & Hf).
      exists ({| row_timeframe := tf; row_report := r |} :: rows).
      split; [now rewrite <- app_assoc|].
      split; [simpl; now rewrite Hm|].
      constructor; [exact Hr|exact Hf].
    + rewrite Hc. cbn [bind]. apply IH.
Qed.

(** X19.  Whatever the exchange returns, [main] raises nothing and collects
    one row for each timeframe whose frame has more than 26 rows, in the
    order "15m", "1h", "4h", "1d", each with the report of [analyze_market]
    on that frame; a failed request (the empty frame) or a frame of 26 rows
    or fewer gives no row. *)
Theorem main_collects_rows (fetch : string -> string -> DataFrame) :
  exists rows,
    main fetch = Ok rows /\
    map row_timeframe rows
    = filter (fun tf => (26 <? length (fetch SYMBOL_PAIR tf))%nat)
        TIMEFRAMES /\
    Forall (fun row =>
              analyze_market (fetch SYMBOL_PAIR (row_timeframe row))
              = Ok (row_report row)) rows /\
    (length rows <= 4)%nat.
Proof.
  destruct (scan_timeframes_rows fetch TIMEFRAMES []) as (rows & Hr & Hm & Hf).
  exists rows. split; [exact Hr|]. split; [exact Hm|]. split; [exact Hf|].
  rewrite <- (length_map row_timeframe), Hm.
  etransitivity; [apply filter_length_le|]. simpl. lia.
Qed.

(** A scan: two frames of 31 rows, a failed request and a frame of 20
    rows. *)
Example main_on_sample_fetch :
  exists rows,
    main sample_fetch = Ok rows /\
    map row_timeframe rows = ["15m"; "1h"]%string /\
    map (fun row => signal (verdict (row_report row))) rows
    = [BearishDiv; BullishDiv].
Proof.
  destruct (scan_timeframes_rows sample_fetch TIMEFRAMES [])
    as (rows & Hr & Hm & Hf).
  exists rows. split; [exact Hr|]. clear Hr.
  assert (Hm' : map row_timeframe rows = ["15m"; "1h"]%string)
    by (rewrite Hm; vm_compute; reflexivity).
  split; [exact Hm'|].
  destruct rows as [|[t1 r1] [|[t2 r2] [|r3 rows]]]; cbn [map row_timeframe] in Hm'; try discriminate Hm'.
  injection Hm' as H1 H2. subst t1 t2.
  apply Forall_cons_iff in Hf. destruct Hf as [Hf1 Hf].
  apply Forall_cons_iff in Hf. destruct Hf as [Hf2 _].
  cbn [row_timeframe row_report] in Hf1, Hf2.
  change (sample_fetch SYMBOL_PAIR "15m") with frame_all_extrema in Hf1.
  change (sample_fetch SYMBOL_PAIR "1h") with frame_low_bumps in Hf2.
  rewrite analyze_market_ok in Hf1 by (vm_compute; lia).
  rewrite analyze_market_ok in Hf2 by (vm_compute; lia).
  injection Hf1 as <-. injection Hf2 as <-.
  cbn [map verdict row_report].
  rewrite !classify_signal. vm_compute. reflexivity.
Qed.
